(** * GroverQLearner: a shallow embedding of [Grover/GroverQLearner.ipynb]

    The notebook defines one class, [GroverQLearner].  Its methods are
    embedded below as functions in a state-and-exception monad over the
    agent object, the heap of circuit objects and the log of backend
    executions.  Line 75, the only place that needs [pi] and [arcsin], is
    evaluated as the code evaluates it, in IEEE 754 double precision
    (the kernel's primitive floats).  The table entries, rewards and
    hyperparameters are exact rationals ([Q]) and the integers are
    unbounded: an idealisation of the doubles and the 64-bit integers of
    the arrays, which the code as written never computes with in a
    training run, since line 195 raises before any of them is used. *)

From Stdlib Require Import ZArith QArith Qround Qabs Floats Reals Lra Lia.
From Stdlib Require Lqa.
From stdpp Require Import base list strings.

Set Default Proof Using "Type".

(** ** Line 75: the maximal Grover length *)

Module MaxLength.
Local Open Scope R_scope.

(** [pi / (4 asin (1 / sqrt (2^n))) - 1/2], the quantity of line 75 over
    the real numbers. *)
Definition grover_optimum (n : Z) : R :=
  PI / (4 * asin (1 / sqrt (IZR (2 ^ n)))) - 1 / 2.

(** The formula in the words of the specification: that quantity under
    [floor]. *)
Definition max_grover_length_floor (n : Z) : Z := Int_part (grover_optimum n).

(** [ceil(np.log2(A))] of line 74, for a positive action dimension: the
    least [n] with [A <= 2^n].  The source takes the logarithm in double
    precision, which gives this [n] for every [A] up to [2^48]; nothing
    below is stated for a larger one. *)
Definition action_qregister_size (A : Z) : Z := Z.log2_up A.

(** *** Line 75 as the code evaluates it, in double precision *)

(** [np.pi] *)
Definition np_pi : float := 0x1.921fb54442d18p+1%float.

(** The value of a finite double, as a rational. *)
Definition float_value (x : float) : option Q :=
  match Prim2SF x with
  | S754_zero _ => Some 0%Q
  | S754_finite s m e =>
      let v := match e with
               | Z0 => Zpos m # 1
               | Zpos p => (Zpos m * 2 ^ Zpos p) # 1
               | Zneg p => Zpos m # (2 ^ p)
               end in
      Some (if s then (- v)%Q else v)
  | S754_infinity _ | S754_nan => None
  end.

(** The nearest integer, a tie going to the even neighbour. *)
Definition round_half_even (q : Q) : Z :=
  let f := Qfloor q in
  match (q - inject_Z f ?= 1 # 2)%Q with
  | Lt => f
  | Gt => (f + 1)%Z
  | Eq => if Z.even f then f else (f + 1)%Z
  end.

(** [int(round(x))] for a double [x]: Python's [round] with no digits
    argument, which raises on an infinity and on a NaN. *)
Definition py_round (x : float) : option Z :=
  round_half_even <$> float_value x.

(** [1. / np.sqrt(2 ** n)], the argument that line 75 passes to
    [np.arcsin].  [2 ** n] is a Python integer, which [np.sqrt] takes as
    the double [2^n]; the square root and the division are those of IEEE
    754 binary64. *)
Definition arcsin_argument (n : Z) : float :=
  (1 / PrimFloat.sqrt (Z.ldexp 1 n))%float.

(** [np.pi / (4 * a) - 0.5] for the double [a] that [np.arcsin] returned. *)
Definition optimum_of_angle (a : float) : float :=
  (np_pi / (4 * a) - 0.5)%float.

Section Line75.

(** [np.arcsin] on a double is the C library's, and its last bit is the
    library's choice: it is a parameter here. *)
Variable np_arcsin : float -> float.

(** [np.pi / (4 * np.arcsin(1. / np.sqrt(2 ** n))) - 0.5]: the division,
    the product with 4 and the difference are those of IEEE 754
    binary64. *)
Definition grover_optimum_double (n : Z) : float :=
  optimum_of_angle (np_arcsin (arcsin_argument n)).

(** [int(round(...))] of line 75. *)
Definition max_grover_length_with (n : Z) : option Z :=
  py_round (grover_optimum_double n).

End Line75.

(** The values of [np.arcsin] at the 64 arguments [1. / np.sqrt(2 ** n)],
    [n] from 0 to 63, that line 75 can pass ([np.sqrt] refuses the
    integer [2 ** n] from [n = 64] on): each argument with the double
    that the C library's [asin] returns for it. *)
Definition arcsin_values : list (float * float) :=
  [
   (0x1.0000000000000p+0, 0x1.921fb54442d18p+0);
   (0x1.6a09e667f3bccp-1, 0x1.921fb54442d17p-1);
   (0x1.0000000000000p-1, 0x1.0c152382d7366p-1);
   (0x1.6a09e667f3bccp-2, 0x1.720a392c1d954p-2);
   (0x1.0000000000000p-2, 0x1.02be9ce0b87cdp-2);
   (0x1.6a09e667f3bccp-3, 0x1.6bf3891642141p-3);
   (0x1.0000000000000p-3, 0x1.00abe0c129e1ep-3);
   (0x1.6a09e667f3bccp-4, 0x1.6a83017dfb54dp-4);
   (0x1.0000000000000p-4, 0x1.002abde953619p-4);
   (0x1.6a09e667f3bccp-5, 0x1.6a2818b1a0bd7p-5);
   (0x1.0000000000000p-5, 0x1.000aabde0b9c8p-5);
   (0x1.6a09e667f3bccp-6, 0x1.6a1171b40fe3ep-6);
   (0x1.0000000000000p-6, 0x1.0002aabdde94cp-6);
   (0x1.6a09e667f3bccp-7, 0x1.6a0bc9269b862p-7);
   (0x1.0000000000000p-7, 0x1.0000aaabdde0cp-7);
   (0x1.6a09e667f3bccp-8, 0x1.6a0a5f1657d1dp-8);
   (0x1.0000000000000p-8, 0x1.00002aaabdddfp-8);
   (0x1.6a09e667f3bccp-9, 0x1.6a0a049378649p-9);
   (0x1.0000000000000p-9, 0x1.00000aaaabddep-9);
   (0x1.6a09e667f3bccp-10, 0x1.6a09edf2d3a0ep-10);
   (0x1.0000000000000p-10, 0x1.000002aaaabdep-10);
   (0x1.6a09e667f3bccp-11, 0x1.6a09e84aaba17p-11);
   (0x1.0000000000000p-11, 0x1.000000aaaaabep-11);
   (0x1.6a09e667f3bccp-12, 0x1.6a09e6e0a1b4ap-12);
   (0x1.0000000000000p-12, 0x1.0000002aaaaacp-12);
   (0x1.6a09e667f3bccp-13, 0x1.6a09e6861f3aap-13);
   (0x1.0000000000000p-13, 0x1.0000000aaaaabp-13);
   (0x1.6a09e667f3bccp-14, 0x1.6a09e66f7e9c3p-14);
   (0x1.0000000000000p-14, 0x1.00000002aaaabp-14);
   (0x1.6a09e667f3bccp-15, 0x1.6a09e669d674ap-15);
   (0x1.0000000000000p-15, 0x1.00000000aaaabp-15);
   (0x1.6a09e667f3bccp-16, 0x1.6a09e6686c6abp-16);
   (0x1.0000000000000p-16, 0x1.000000002aaabp-16);
   (0x1.6a09e667f3bccp-17, 0x1.6a09e66811e84p-17);
   (0x1.0000000000000p-17, 0x1.000000000aaabp-17);
   (0x1.6a09e667f3bccp-18, 0x1.6a09e667fb47ap-18);
   (0x1.0000000000000p-18, 0x1.0000000002aabp-18);
   (0x1.6a09e667f3bccp-19, 0x1.6a09e667f59f7p-19);
   (0x1.0000000000000p-19, 0x1.0000000000aabp-19);
   (0x1.6a09e667f3bccp-20, 0x1.6a09e667f4357p-20);
   (0x1.0000000000000p-20, 0x1.00000000002abp-20);
   (0x1.6a09e667f3bccp-21, 0x1.6a09e667f3dafp-21);
   (0x1.0000000000000p-21, 0x1.00000000000abp-21);
   (0x1.6a09e667f3bccp-22, 0x1.6a09e667f3c45p-22);
   (0x1.0000000000000p-22, 0x1.000000000002bp-22);
   (0x1.6a09e667f3bccp-23, 0x1.6a09e667f3beap-23);
   (0x1.0000000000000p-23, 0x1.000000000000bp-23);
   (0x1.6a09e667f3bccp-24, 0x1.6a09e667f3bd4p-24);
   (0x1.0000000000000p-24, 0x1.0000000000003p-24);
   (0x1.6a09e667f3bccp-25, 0x1.6a09e667f3bcep-25);
   (0x1.0000000000000p-25, 0x1.0000000000001p-25);
   (0x1.6a09e667f3bccp-26, 0x1.6a09e667f3bccp-26);
   (0x1.0000000000000p-26, 0x1.0000000000000p-26);
   (0x1.6a09e667f3bccp-27, 0x1.6a09e667f3bccp-27);
   (0x1.0000000000000p-27, 0x1.0000000000000p-27);
   (0x1.6a09e667f3bccp-28, 0x1.6a09e667f3bccp-28);
   (0x1.0000000000000p-28, 0x1.0000000000000p-28);
   (0x1.6a09e667f3bccp-29, 0x1.6a09e667f3bccp-29);
   (0x1.0000000000000p-29, 0x1.0000000000000p-29);
   (0x1.6a09e667f3bccp-30, 0x1.6a09e667f3bccp-30);
   (0x1.0000000000000p-30, 0x1.0000000000000p-30);
   (0x1.6a09e667f3bccp-31, 0x1.6a09e667f3bccp-31);
   (0x1.0000000000000p-31, 0x1.0000000000000p-31);
   (0x1.6a09e667f3bccp-32, 0x1.6a09e667f3bccp-32)
  ]%float.

Definition libm_arcsin (y : float) : float :=
  match List.find (fun p => PrimFloat.eqb p.1 y) arcsin_values with
  | Some p => p.2
  | None => nan
  end.

(** The doubles that [np.arcsin] can return for the register size [n]: the
    C library's value and its two neighbours. *)
Definition arcsin_candidates (n : Z) : list float :=
  let t := libm_arcsin (arcsin_argument n) in [next_down t; t; next_up t].

(** An [np.arcsin] that agrees with the table up to the last bit, at every
    argument that line 75 can pass. *)
Definition within_one_ulp (np_arcsin : float -> float) : Prop :=
  forall n : Z, (0 <= n <= 63)%Z ->
    In (np_arcsin (arcsin_argument n)) (arcsin_candidates n).

(** The lengths that line 75 can give for the register size [n]. *)
Definition length_candidates (n : Z) : list (option Z) :=
  map (fun a => py_round (optimum_of_angle a)) (arcsin_candidates n).

(** Line 75 for a register of [n] qubits, [0 <= n <= 63].  (For other
    [n] the source raises; the value 0 stands in for that here.) *)
Definition max_grover_length (n : Z) : Z :=
  default 0%Z (max_grover_length_with libm_arcsin n).

End MaxLength.

(** ** The objects of the notebook *)

Module GroverQLearner.

(** The exceptions the methods can raise.  [ArrayStoreError] is numpy
    refusing to store an object that is not a number in a [float64] array
    (the arrays that [np.zeros] returns). *)
Inductive exn :=
  | AttributeError (attr : string)
  | NotCallable
  | NotIterable
  | NotSubscriptable
  | ArrayStoreError
  | IndexError
  | ValueError
  | OverflowError
  | CircuitError.

(** [GroverOperator(oracle=Statevector.from_label(label)).to_instruction()] *)
Inductive instruction := GroverOp (label : list bool).

Inductive gate :=
  | H (qubit : Z)
  | Append (op : instruction) (qargs : list Z)
  | Barrier (qargs : list Z)
  | Measure (qubit clbit : Z).

(** A [QuantumCircuit]: [name_index] is the [s] of the name
    ['action_s{}'.format(s)]. *)
Record circuit := {
  num_qubits : Z;
  num_clbits : Z;
  name_index : Z;
  data : list gate }.

(** An element of a one-dimensional numpy array: the [0.] that [np.zeros]
    puts there, or an object stored later; circuits are mutable and are
    held by reference into the heap. *)
Inductive cell :=
  | Float (x : Q)
  | CircuitRef (loc : nat)
  | Instr (op : instruction).

(** [self.hyperparameters], a dict with the six keys of lines 81-88. *)
Record hyper := {
  k : Q; alpha : Q; gamma : Q; eps : Q;
  max_epochs : Z; max_steps : Z }.

(** The attributes that [__init__] assigns (lines 69-89); the environment
    and the backend live in the machine state below. *)
Record agent := {
  state : Z;
  action : Z;
  state_dimension : Z;
  action_dimension : Z;
  action_qregister_size : Z;
  max_grover_length : Z;
  Q_values : list (list Q);
  grover_lengths : list (list Z);
  max_grover_length_reached : list (list bool);
  grover_operators : list cell;
  action_circuits : list cell;
  hyperparameters : hyper }.

Definition set_state (v : Z) (a : agent) : agent :=
  {| state := v; action := action a; state_dimension := state_dimension a;
     action_dimension := action_dimension a;
     action_qregister_size := action_qregister_size a;
     max_grover_length := max_grover_length a; Q_values := Q_values a;
     grover_lengths := grover_lengths a;
     max_grover_length_reached := max_grover_length_reached a;
     grover_operators := grover_operators a;
     action_circuits := action_circuits a;
     hyperparameters := hyperparameters a |}.

Definition set_action (v : Z) (a : agent) : agent :=
  {| state := state a; action := v; state_dimension := state_dimension a;
     action_dimension := action_dimension a;
     action_qregister_size := action_qregister_size a;
     max_grover_length := max_grover_length a; Q_values := Q_values a;
     grover_lengths := grover_lengths a;
     max_grover_length_reached := max_grover_length_reached a;
     grover_operators := grover_operators a;
     action_circuits := action_circuits a;
     hyperparameters := hyperparameters a |}.

Definition set_Q_values (v : list (list Q)) (a : agent) : agent :=
  {| state := state a; action := action a;
     state_dimension := state_dimension a;
     action_dimension := action_dimension a;
     action_qregister_size := action_qregister_size a;
     max_grover_length := max_grover_length a; Q_values := v;
     grover_lengths := grover_lengths a;
     max_grover_length_reached := max_grover_length_reached a;
     grover_operators := grover_operators a;
     action_circuits := action_circuits a;
     hyperparameters := hyperparameters a |}.

Definition set_grover_lengths (v : list (list Z)) (a : agent) : agent :=
  {| state := state a; action := action a;
     state_dimension := state_dimension a;
     action_dimension := action_dimension a;
     action_qregister_size := action_qregister_size a;
     max_grover_length := max_grover_length a; Q_values := Q_values a;
     grover_lengths := v;
     max_grover_length_reached := max_grover_length_reached a;
     grover_operators := grover_operators a;
     action_circuits := action_circuits a;
     hyperparameters := hyperparameters a |}.

Definition set_max_grover_length_reached (v : list (list bool)) (a : agent)
  : agent :=
  {| state := state a; action := action a;
     state_dimension := state_dimension a;
     action_dimension := action_dimension a;
     action_qregister_size := action_qregister_size a;
     max_grover_length := max_grover_length a; Q_values := Q_values a;
     grover_lengths := grover_lengths a;
     max_grover_length_reached := v;
     grover_operators := grover_operators a;
     action_circuits := action_circuits a;
     hyperparameters := hyperparameters a |}.

Definition set_grover_operators (v : list cell) (a : agent) : agent :=
  {| state := state a; action := action a;
     state_dimension := state_dimension a;
     action_dimension := action_dimension a;
     action_qregister_size := action_qregister_size a;
     max_grover_length := max_grover_length a; Q_values := Q_values a;
     grover_lengths := grover_lengths a;
     max_grover_length_reached := max_grover_length_reached a;
     grover_operators := v;
     action_circuits := action_circuits a;
     hyperparameters := hyperparameters a |}.

Definition set_hyperparameters_attr (v : hyper) (a : agent) : agent :=
  {| state := state a; action := action a;
     state_dimension := state_dimension a;
     action_dimension := action_dimension a;
     action_qregister_size := action_qregister_size a;
     max_grover_length := max_grover_length a; Q_values := Q_values a;
     grover_lengths := grover_lengths a;
     max_grover_length_reached := max_grover_length_reached a;
     grover_operators := grover_operators a;
     action_circuits := action_circuits a;
     hyperparameters := v |}.

Definition set_state_dimension (v : Z) (a : agent) : agent :=
  {| state := state a; action := action a; state_dimension := v;
     action_dimension := action_dimension a;
     action_qregister_size := action_qregister_size a;
     max_grover_length := max_grover_length a; Q_values := Q_values a;
     grover_lengths := grover_lengths a;
     max_grover_length_reached := max_grover_length_reached a;
     grover_operators := grover_operators a;
     action_circuits := action_circuits a;
     hyperparameters := hyperparameters a |}.

Definition set_action_dimension (v : Z) (a : agent) : agent :=
  {| state := state a; action := action a;
     state_dimension := state_dimension a; action_dimension := v;
     action_qregister_size := action_qregister_size a;
     max_grover_length := max_grover_length a; Q_values := Q_values a;
     grover_lengths := grover_lengths a;
     max_grover_length_reached := max_grover_length_reached a;
     grover_operators := grover_operators a;
     action_circuits := action_circuits a;
     hyperparameters := hyperparameters a |}.

Definition set_action_qregister_size (v : Z) (a : agent) : agent :=
  {| state := state a; action := action a;
     state_dimension := state_dimension a;
     action_dimension := action_dimension a;
     action_qregister_size := v;
     max_grover_length := max_grover_length a; Q_values := Q_values a;
     grover_lengths := grover_lengths a;
     max_grover_length_reached := max_grover_length_reached a;
     grover_operators := grover_operators a;
     action_circuits := action_circuits a;
     hyperparameters := hyperparameters a |}.

Definition set_max_grover_length (v : Z) (a : agent) : agent :=
  {| state := state a; action := action a;
     state_dimension := state_dimension a;
     action_dimension := action_dimension a;
     action_qregister_size := action_qregister_size a;
     max_grover_length := v; Q_values := Q_values a;
     grover_lengths := grover_lengths a;
     max_grover_length_reached := max_grover_length_reached a;
     grover_operators := grover_operators a;
     action_circuits := action_circuits a;
     hyperparameters := hyperparameters a |}.

Definition set_action_circuits (v : list cell) (a : agent) : agent :=
  {| state := state a; action := action a;
     state_dimension := state_dimension a;
     action_dimension := action_dimension a;
     action_qregister_size := action_qregister_size a;
     max_grover_length := max_grover_length a; Q_values := Q_values a;
     grover_lengths := grover_lengths a;
     max_grover_length_reached := max_grover_length_reached a;
     grover_operators := grover_operators a;
     action_circuits := v;
     hyperparameters := hyperparameters a |}.

(** How the notebook's text is read.  [AsWritten] is Python: an attribute
    that [__init__] never assigns raises [AttributeError], calling an array
    raises, iterating over an integer raises, subscripting a bound method
    raises, and a [float64] array refuses objects.  [Mended] reads each of
    these five notations as the operation next to it: the misspelt
    attributes [grover_length] and [Q_value] as the fields [grover_lengths]
    and [Q_values], [arr(i)] as [arr[i]], [for _ in n] as
    [for _ in range(n)], [l.append[x]] as [l.append(x)], and the arrays of
    lines 99 and 111 as object arrays.  Nothing else differs between the
    two. *)
Inductive reading := AsWritten | Mended.

(** ** Plain helpers *)

(** [range(n)] *)
Definition range (n : Z) : list Z := seqZ 0 n.

(** A numpy or list index: a negative index counts from the end. *)
Definition norm_index (len i : Z) : option nat :=
  if decide (0 <= i < len)%Z then Some (Z.to_nat i)
  else if decide (- len <= i < 0)%Z then Some (Z.to_nat (len + i))
  else None.

Definition lookup_index {A} (l : list A) (i : Z) : option A :=
  n ← norm_index (Z.of_nat (length l)) i; l !! n.

Definition update_index {A} (l : list A) (i : Z) (x : A) : option (list A) :=
  n ← norm_index (Z.of_nat (length l)) i; Some (<[n := x]> l).

(** [float(x)] to [int]: truncation towards zero. *)
Definition int_of_float (x : Q) : Z := Z.quot (Qnum x) (Zpos (Qden x)).

Definition Qmax2 (x y : Q) : Q := if Qle_bool x y then y else x.

(** [np.max] of a non-empty row. *)
Definition max_of_row (x : Q) (l : list Q) : Q := fold_left Qmax2 l x.

(** [int(s, 2)] on a non-empty string of binary digits, most significant
    first. *)
Definition int_base2 (s : list bool) : Z :=
  fold_left (fun acc (b : bool) => (2 * acc + (if b then 1 else 0))%Z) s 0%Z.

(** [format(i, '0{}b'.format(n))]: the binary digits of [i], padded with
    zeros on the left to width [n]. *)
Fixpoint binary_digits (fuel : nat) (i : Z) : list bool :=
  match fuel with
  | O => []
  | S fuel' =>
      if decide (i <= 0)%Z then []
      else binary_digits fuel' (i / 2) ++ [Z.odd i]
  end.

Definition format_binary (i n : Z) : list bool :=
  let ds := match binary_digits (S (Z.to_nat (Z.log2 i))) i with
            | [] => [false]
            | ds => ds
            end in
  replicate (Z.to_nat n - length ds) false ++ ds.

(** [row.any()] on a row of booleans. *)
Definition any (row : list bool) : bool := existsb (fun b => b) row.

(** [np.zeros((rows, cols))] for non-negative dimensions. *)
Definition zeros2 {A} (z : A) (rows cols : Z) : list (list A) :=
  replicate (Z.to_nat rows) (replicate (Z.to_nat cols) z).

(** [QuantumCircuit(n, name='action_s{}'.format(s))] *)
Definition QuantumCircuit (n s : Z) : circuit :=
  {| num_qubits := n; num_clbits := 0; name_index := s; data := [] |}.

Definition add_gates (gs : list gate) (c : circuit) : circuit :=
  {| num_qubits := num_qubits c; num_clbits := num_clbits c;
     name_index := name_index c; data := data c ++ gs |}.

(** [circuit.measure_all()]: a classical register as wide as the circuit,
    a barrier, and one measurement per qubit. *)
Definition measure_all (c : circuit) : circuit :=
  {| num_qubits := num_qubits c;
     num_clbits := num_clbits c + num_qubits c;
     name_index := name_index c;
     data := data c ++ Barrier (range (num_qubits c))
               :: map (fun q => Measure q (num_clbits c + q))
                      (range (num_qubits c)) |}.

(** Lines 81-88. *)
Definition default_hyperparameters : hyper :=
  {| k := 1 # 10; alpha := 5 # 100; gamma := 99 # 100; eps := 1 # 100;
     max_epochs := 1000; max_steps := 100 |}.

(** ** The machine: agent, circuit heap, backend log, collaborators *)

Inductive outcome (A : Type) :=
  | Ok (a : A)
  | Raise (e : exn).
Arguments Ok {A} a.
Arguments Raise {A} e.

Section Methods.

(** The environment and the backend are collaborators with a state of their
    own.  [env_step] returns the first four components of the five-tuple
    that line 185 unpacks (the fifth is discarded there). *)
Context {Env Backend : Type}.
Variable env_reset : Env -> Z * Env.
Variable env_step : Z -> Env -> (Z * Q * bool * bool) * Env.
Variable observation_space_n action_space_n : Z.
Variable backend_run :
  circuit -> Z -> Backend -> list (list bool * Z) * Backend.
Variable rd : reading.

Record machine := {
  self : agent;
  heap : list circuit;
  jobs : list (circuit * Z);
  env : Env;
  backend : Backend }.

Definition set_self (v : agent) (m : machine) : machine :=
  {| self := v; heap := heap m; jobs := jobs m; env := env m;
     backend := backend m |}.
Definition set_heap (v : list circuit) (m : machine) : machine :=
  {| self := self m; heap := v; jobs := jobs m; env := env m;
     backend := backend m |}.
Definition set_jobs (v : list (circuit * Z)) (m : machine) : machine :=
  {| self := self m; heap := heap m; jobs := v; env := env m;
     backend := backend m |}.
Definition set_env (v : Env) (m : machine) : machine :=
  {| self := self m; heap := heap m; jobs := jobs m; env := v;
     backend := backend m |}.
Definition set_backend (v : Backend) (m : machine) : machine :=
  {| self := self m; heap := heap m; jobs := jobs m; env := env m;
     backend := v |}.

(** State and exceptions: an exception leaves the machine as it was when it
    was raised. *)
Definition M (A : Type) : Type := machine -> outcome A * machine.

#[global] Instance M_ret : MRet M := fun A a m => (Ok a, m).
#[global] Instance M_bind : MBind M := fun A B f c m =>
  match c m with
  | (Ok a, m') => f a m'
  | (Raise e, m') => (Raise e, m')
  end.

Definition raise {A} (e : exn) : M A := fun m => (Raise e, m).
Definition get_self : M agent := fun m => (Ok (self m), m).
Definition modify_self (f : agent -> agent) : M unit :=
  fun m => (Ok tt, set_self (f (self m)) m).
Definition from_option {A} (e : exn) (o : option A) : M A :=
  match o with Some a => mret a | None => raise e end.

(** [l[i]] and [l[i] = x] *)
Definition getitem {A} (l : list A) (i : Z) : M A :=
  from_option IndexError (lookup_index l i).
Definition setitem {A} (l : list A) (i : Z) (x : A) : M (list A) :=
  from_option IndexError (update_index l i x).

(** [t[i, j]] and [t[i, j] = x] on a two-dimensional array *)
Definition getitem2 {A} (t : list (list A)) (i j : Z) : M A :=
  row ← getitem t i; getitem row j.
Definition setitem2 {A} (t : list (list A)) (i j : Z) (x : A)
  : M (list (list A)) :=
  row ← getitem t i; row' ← setitem row j x; setitem t i row'.

(** [np.max(row)]: an empty row raises. *)
Definition np_max (row : list Q) : M Q :=
  match row with
  | [] => raise ValueError
  | x :: l => mret (max_of_row x l)
  end.

(** [np.zeros(n)]: a negative length raises. *)
Definition np_zeros (n : Z) : M (list cell) :=
  if decide (n < 0)%Z then raise ValueError
  else mret (replicate (Z.to_nat n) (Float 0)).

(** The heap of circuit objects. *)
Definition alloc (c : circuit) : M nat :=
  fun m => (Ok (length (heap m)), set_heap (heap m ++ [c]) m).
Definition deref (l : nat) : M circuit :=
  fun m => from_option IndexError (heap m !! l) m.
Definition mutate (l : nat) (f : circuit -> circuit) : M unit :=
  fun m => (Ok tt, set_heap (alter f l (heap m)) m).

(** A method that only circuits have, looked up on an array element. *)
Definition circuit_method (method : string) (c : cell) : M nat :=
  match c with
  | CircuitRef l => mret l
  | _ => raise (AttributeError method)
  end.

(** [circuit.h(qargs)], line 103: one Hadamard gate per qubit of the list;
    qiskit refuses an empty list with a [CircuitError]. *)
Definition circuit_h (circuit : cell) (qargs : list Z) : M unit :=
  l ← circuit_method "h" circuit;
  match qargs with
  | [] => raise CircuitError
  | _ => mutate l (add_gates (map H qargs))
  end.

(** [execute(circuit, backend=self.backend, shots=shots).result().get_counts()] *)
Definition submit (c : circuit) (shots : Z) : M (list (list bool * Z)) :=
  fun m =>
    let r := backend_run c shots (backend m) in
    (Ok r.1, set_backend r.2 (set_jobs (jobs m ++ [(c, shots)]) m)).
Definition execute (l : nat) (shots : Z) : M (list (list bool * Z)) :=
  c ← deref l; submit c shots.

(** A loop [for i in l] over a loop state, with [break]. *)
Fixpoint for_loop {I S} (l : list I) (body : I -> S -> M (S * bool)) (s : S)
  : M S :=
  match l with
  | [] => mret s
  | i :: l' =>
      body i s ≫= fun r : S * bool =>
      if r.2 then mret r.1 else for_loop l' body r.1
  end.

(** *** The five notations that the two readings read differently *)

(** [self.grover_length(s, a)], line 142. *)
Definition call_grover_length (s a : Z) : M Z :=
  match rd with
  | AsWritten => raise (AttributeError "grover_length")
  | Mended => me ← get_self; getitem2 (grover_lengths me) s a
  end.

(** [arr(i)], lines 143-145. *)
Definition call_array {A} (arr : list A) (i : Z) : M A :=
  match rd with
  | AsWritten => raise NotCallable
  | Mended => getitem arr i
  end.

(** [for _ in n], line 147. *)
Definition iter_int (n : Z) : M (list Z) :=
  match rd with
  | AsWritten => raise NotIterable
  | Mended => mret (range n)
  end.

(** [self.Q_value], line 159: read, and write back after an item
    assignment. *)
Definition attr_Q_value : M (list (list Q)) :=
  match rd with
  | AsWritten => raise (AttributeError "Q_value")
  | Mended => me ← get_self; mret (Q_values me)
  end.
Definition assign_Q_value (t : list (list Q)) : M unit :=
  match rd with
  | AsWritten => raise (AttributeError "Q_value")
  | Mended => modify_self (set_Q_values t)
  end.

(** [l.append[x]], lines 203-205. *)
Definition append_subscript {A} (l : list A) (x : A) : M (list A) :=
  match rd with
  | AsWritten => raise NotSubscriptable
  | Mended => mret (l ++ [x])
  end.

(** [arr[i] = obj] for an array made by [np.zeros] and an object that is
    not a number, lines 101, 115 and 151. *)
Definition store_object (arr : list cell) (i : Z) (c : cell)
  : M (list cell) :=
  match rd with
  | AsWritten => _ ← getitem arr i; raise ArrayStoreError
  | Mended => setitem arr i c
  end.

(** *** The methods *)

(** Lines 92-93: the body is [pass]. *)
Definition set_hyperparameters {P} (params : P) : M unit := mret tt.

(** Lines 95-104. *)
Definition _init_action_circuits : M (list cell) :=
  me ← get_self;
  arr ← np_zeros (state_dimension me);
  arr ← for_loop (range (state_dimension me))
         (fun s (arr : list cell) =>
            l ← alloc (QuantumCircuit (action_qregister_size me) s);
            arr' ← store_object arr s (CircuitRef l);
            mret (arr', false))
         arr;
  for_loop arr
    (fun circuit (_ : unit) =>
       circuit_h circuit (range (action_qregister_size me));;
       mret (tt, false))
    tt;;
  mret arr.

(** Lines 106-116. *)
Definition _init_grover_operators : M (list cell) :=
  me ← get_self;
  grove_operators ← np_zeros (action_dimension me);
  target_states ← np_zeros (action_dimension me);
  for_loop (range (action_dimension me))
    (fun i (arr : list cell) =>
       let state_binary := format_binary i (action_qregister_size me) in
       arr' ← store_object arr i (Instr (GroverOp state_binary));
       mret (arr', false))
    grove_operators.

(** [ceil(np.log2(A))], line 74: the logarithm of 0 is minus infinity and
    that of a negative number is not a number, and [ceil] raises on both. *)
Definition ceil_log2 (A : Z) : M Z :=
  if decide (A = 0)%Z then raise OverflowError
  else if decide (A < 0)%Z then raise ValueError
  else mret (MaxLength.action_qregister_size A).

(** [np.zeros((rows, cols))], lines 76-78. *)
Definition np_zeros2 {A} (z : A) (rows cols : Z) : M (list (list A)) :=
  if decide (rows < 0 \/ cols < 0)%Z then raise ValueError
  else mret (zeros2 z rows cols).

(** Lines 68-89.  The attributes are assigned one after the other, in the
    order of the source, on the object that [self] is bound to; [self.env]
    and [self.backend] are the collaborators of the machine. *)
Definition __init__ : M unit :=
  s0 ← (fun m => let r := env_reset (env m) in (Ok r.1, set_env r.2 m));
  modify_self (set_state s0);;
  modify_self (set_action 0);;
  modify_self (set_state_dimension observation_space_n);;
  modify_self (set_action_dimension action_space_n);;
  n ← ceil_log2 action_space_n;
  modify_self (set_action_qregister_size n);;
  modify_self (set_max_grover_length (MaxLength.max_grover_length n));;
  qv ← np_zeros2 0%Q observation_space_n action_space_n;
  modify_self (set_Q_values qv);;
  gl ← np_zeros2 0%Z observation_space_n action_space_n;
  modify_self (set_grover_lengths gl);;
  fl ← np_zeros2 false observation_space_n action_space_n;
  modify_self (set_max_grover_length_reached fl);;
  ops ← _init_grover_operators;
  modify_self (set_grover_operators ops);;
  cs ← _init_action_circuits;
  modify_self (set_action_circuits cs);;
  modify_self (set_hyperparameters_attr default_hyperparameters).

(** Lines 118-129. *)
Definition _take_action : M Z :=
  me ← get_self;
  circuit ← getitem (action_circuits me) (state me);
  l ← circuit_method "measure_all" circuit;
  c ← deref l;
  circuit_to_measure ← alloc c;
  mutate circuit_to_measure measure_all;;
  counts ← execute circuit_to_measure 1;
  key ← getitem (map fst counts) 0;
  match key with
  | [] => raise ValueError
  | _ => mret (int_base2 key)
  end.

(** Lines 131-136. *)
Definition _get_grover_length (reward : Q) (new_state : Z) : M Z :=
  me ← get_self;
  row ← getitem (Q_values me) new_state;
  mx ← np_max row;
  mret (int_of_float (k (hyperparameters me) * (reward + mx))).

(** [circuit.append(grover_operator, list(range(n)))], line 148. *)
Definition circuit_append (circuit grover_operator : cell) (n : Z) : M unit :=
  l ← circuit_method "append" circuit;
  match grover_operator with
  | Instr op => mutate l (add_gates [Append op (range n)])
  | _ => raise CircuitError
  end.

(** Lines 138-151. *)
Definition _run_grover_iterations : M unit :=
  me ← get_self;
  gl ← call_grover_length (state me) (action me);
  let length := Z.min gl (max_grover_length me) in
  circuit ← call_array (action_circuits me) (state me);
  grover_operator ← call_array (grover_operators me) (action me);
  reached ← call_array (max_grover_length_reached me) (state me);
  (if negb (any reached) then
     it ← iter_int length;
     for_loop it
       (fun _ (_ : unit) =>
          circuit_append circuit grover_operator (action_qregister_size me);;
          mret (tt, false))
       tt
   else mret tt);;
  (if (length =? max_grover_length me)%Z && negb (any reached) then
     t ← setitem2 (max_grover_length_reached me) (state me) (action me) true;
     modify_self (set_max_grover_length_reached t)
   else mret tt);;
  me' ← get_self;
  arr ← store_object (action_circuits me') (state me') circuit;
  modify_self (set_action_circuits arr).

(** Lines 153-159.  Python evaluates the right-hand side from left to
    right and then the target of the assignment. *)
Definition _update_Q_values (reward : Q) (new_state : Z) : M unit :=
  me ← get_self;
  let alpha := alpha (hyperparameters me) in
  let gamma := gamma (hyperparameters me) in
  q0 ← getitem2 (Q_values me) (state me) (action me);
  qv ← attr_Q_value;
  row ← getitem qv new_state;
  mx ← np_max row;
  q1 ← getitem2 (Q_values me) (state me) (action me);
  target ← attr_Q_value;
  t ← setitem2 target (state me) (action me)
        (q0 + alpha * (reward + gamma * mx - q1))%Q;
  assign_Q_value t.

(** *** [train], lines 161-207 *)

(** The local variables of [train] that the loops change. *)
Record frame := {
  optimal_steps : Z;
  target_reached : bool;
  trajectory : list Z;
  steps_in_all_epochs : list Z;
  target_reached_in_all_epochs : list bool;
  trajectories_in_all_epochs : list (list Z) }.

Definition set_trajectory (v : list Z) (fr : frame) : frame :=
  {| optimal_steps := optimal_steps fr; target_reached := target_reached fr;
     trajectory := v; steps_in_all_epochs := steps_in_all_epochs fr;
     target_reached_in_all_epochs := target_reached_in_all_epochs fr;
     trajectories_in_all_epochs := trajectories_in_all_epochs fr |}.

Definition set_target_reached (v : bool) (fr : frame) : frame :=
  {| optimal_steps := optimal_steps fr; target_reached := v;
     trajectory := trajectory fr;
     steps_in_all_epochs := steps_in_all_epochs fr;
     target_reached_in_all_epochs := target_reached_in_all_epochs fr;
     trajectories_in_all_epochs := trajectories_in_all_epochs fr |}.

Definition set_optimal_steps (v : Z) (fr : frame) : frame :=
  {| optimal_steps := v; target_reached := target_reached fr;
     trajectory := trajectory fr;
     steps_in_all_epochs := steps_in_all_epochs fr;
     target_reached_in_all_epochs := target_reached_in_all_epochs fr;
     trajectories_in_all_epochs := trajectories_in_all_epochs fr |}.

(** Lines 186-194: an [if], then an [if] with an [elif].  The result is the
    shaped reward, [done], and the frame with [optimal_steps] and
    [target_reached] as line 191-192 leave them. *)
Definition shape_reward (cur S step new_state : Z) (reward : Q) (done : bool)
    (fr : frame) : Q * bool * frame :=
  let rd1 :=
    if decide (new_state = cur) then ((reward - 10)%Q, true)
    else (reward, done) in
  if decide (new_state = S - 1)%Z then
    ((rd1.1 + 99)%Q, rd1.2,
     set_target_reached true (set_optimal_steps (step + 1) fr))
  else if negb rd1.2 then ((rd1.1 - 1)%Q, rd1.2, fr)
  else (rd1.1, rd1.2, fr).

(** Line 196. *)
Definition record_grover_length (reward : Q) (new_state : Z) : M unit :=
  gl ← _get_grover_length reward new_state;
  me ← get_self;
  t ← setitem2 (grover_lengths me) (state me) (action me) gl;
  modify_self (set_grover_lengths t).

(** Lines 183-201, the body of the step loop; the boolean says whether the
    loop is left through [break]. *)
Definition train_step (step : Z) (fr : frame) : M (frame * bool) :=
  a ← _take_action;
  modify_self (set_action a);;
  me ← get_self;
  r ← (fun m => let r := env_step (action me) (env m) in
                (Ok r.1, set_env r.2 m));
  let new_state := r.1.1.1 in
  let shaped :=
    shape_reward (state me) (state_dimension me) step new_state r.1.1.2 r.2 fr
  in
  let reward := shaped.1.1 in
  let done := shaped.1.2 in
  _update_Q_values reward new_state;;
  record_grover_length reward new_state;;
  _run_grover_iterations;;
  let fr' := set_trajectory (trajectory shaped.2 ++ [new_state]) shaped.2 in
  if done then mret (fr', true)
  else modify_self (set_state new_state);; mret (fr', false).

(** Lines 178-180, the start of an epoch. *)
Definition epoch_start (fr : frame) : M frame :=
  s0 ← (fun m => let r := env_reset (env m) in (Ok r.1, set_env r.2 m));
  modify_self (set_state s0);;
  mret (set_trajectory [s0] (set_target_reached false fr)).

(** Lines 176-205, the body of the epoch loop. *)
Definition train_epoch (epoch : Z) (fr : frame) : M (frame * bool) :=
  fr ← epoch_start fr;
  fr ← for_loop (range (optimal_steps fr)) train_step fr;
  l1 ← append_subscript (steps_in_all_epochs fr) (optimal_steps fr);
  l2 ← append_subscript (target_reached_in_all_epochs fr) (target_reached fr);
  l3 ← append_subscript (trajectories_in_all_epochs fr) (trajectory fr);
  mret ({| optimal_steps := optimal_steps fr;
           target_reached := target_reached fr;
           trajectory := trajectory fr;
           steps_in_all_epochs := l1;
           target_reached_in_all_epochs := l2;
           trajectories_in_all_epochs := l3 |}, false).

Definition train : M (list Z * list bool * list (list Z)) :=
  me ← get_self;
  let max_epochs := max_epochs (hyperparameters me) in
  let fr :=
    {| optimal_steps := max_steps (hyperparameters me);
       target_reached := false; trajectory := [];
       steps_in_all_epochs := []; target_reached_in_all_epochs := [];
       trajectories_in_all_epochs := [] |} in
  fr ← for_loop (range max_epochs) train_epoch fr;
  mret (steps_in_all_epochs fr, target_reached_in_all_epochs fr,
        trajectories_in_all_epochs fr).

(** What a run of [train] shows about the step limit: [limit] is the
    limit of the first epoch; an epoch takes [n] steps, at most its limit,
    and fewer only when a step left the loop through [break]; the value
    [s] it records is its limit or a smaller positive one, and is the limit
    of the next epoch. *)
Fixpoint step_limits (limit : Z) (steps : list Z) (trajs : list (list Z))
  : Prop :=
  match steps, trajs with
  | [], [] => True
  | s :: steps', t :: trajs' =>
      (exists n : nat,
         length t = S n /\ (n <= Z.to_nat limit)%nat /\
         (n = Z.to_nat limit \/
          exists step fr1 m1 fr2 m2,
            train_step step fr1 m1 = (Ok (fr2, true), m2) /\
            trajectory fr2 = t)) /\
      (s = limit \/ (1 <= s <= limit)%Z) /\
      step_limits s steps' trajs'
  | _, _ => False
  end.

End Methods.

End GroverQLearner.

(** ** A concrete agent, environment and backend

    Three states on a cycle, 0 -> 1 -> 2 -> 0, whatever the action; the
    reward is 0 and the environment never reports the end of an episode.
    The backend answers every execution with the outcome ['1'].  Two
    actions, so one qubit. *)

Module Cycle.
Import GroverQLearner.

Definition env_reset (e : Z) : Z * Z := (0%Z, 0%Z).

Definition env_step (a : Z) (e : Z) : (Z * Q * bool * bool) * Z :=
  let s' := ((e + 1) mod 3)%Z in ((s', 0%Q, false, false), s').

Definition backend_run (c : circuit) (shots : Z) (b : unit)
  : list (list bool * Z) * unit :=
  ([([true], 1%Z)], tt).

Definition hp : hyper :=
  {| k := 1 # 10; alpha := 5 # 100; gamma := 99 # 100; eps := 1 # 100;
     max_epochs := 2; max_steps := 3 |}.

Definition superposition (s : Z) : circuit :=
  add_gates [H 0] (QuantumCircuit 1 s).

Definition learner : agent :=
  {| state := 0; action := 0; state_dimension := 3; action_dimension := 2;
     action_qregister_size := 1; max_grover_length := 1;
     Q_values := zeros2 0%Q 3 2;
     grover_lengths := zeros2 0%Z 3 2;
     max_grover_length_reached := zeros2 false 3 2;
     grover_operators := [Instr (GroverOp [false]); Instr (GroverOp [true])];
     action_circuits := [CircuitRef 0; CircuitRef 1; CircuitRef 2];
     hyperparameters := hp |}.

Definition m0 : machine :=
  {| self := learner;
     heap := [superposition 0; superposition 1; superposition 2];
     jobs := []; env := 0%Z; backend := tt |}.

(** The same agent in state 1 about to reinforce action 0, when action 1
    of that state is already saturated and the length recorded for the
    pair (1, 0) is 1. *)
Definition m_saturated_sibling : machine :=
  set_self
    (set_state 1
       (set_grover_lengths [[0; 0]; [1; 0]; [0; 0]]%Z
          (set_max_grover_length_reached
             [[false; false]; [false; true]; [false; false]] learner)))
    m0.

(** The same, with no action of state 1 saturated. *)
Definition m_unsaturated : machine :=
  set_self
    (set_state 1 (set_grover_lengths [[0; 0]; [1; 0]; [0; 0]]%Z learner))
    m0.

(** [m0] with [max_steps] set to 0. *)
Definition m_no_steps : machine :=
  set_self
    (set_hyperparameters_attr
       {| k := 1 # 10; alpha := 5 # 100; gamma := 99 # 100; eps := 1 # 100;
          max_epochs := 2; max_steps := 0 |} learner)
    m0.

(** The machine before [__init__] runs: an object without attributes yet,
    an empty heap. *)
Definition m_new : machine :=
  {| self :=
       {| state := 0; action := 0; state_dimension := 0;
          action_dimension := 0; action_qregister_size := 0;
          max_grover_length := 0; Q_values := []; grover_lengths := [];
          max_grover_length_reached := []; grover_operators := [];
          action_circuits := []; hyperparameters := hp |};
     heap := []; jobs := []; env := 0%Z; backend := tt |}.

(** The locals of [train] at line 175, for [hp]. *)
Definition frame0 : frame :=
  {| optimal_steps := 3; target_reached := false; trajectory := [];
     steps_in_all_epochs := []; target_reached_in_all_epochs := [];
     trajectories_in_all_epochs := [] |}.

End Cycle.

(** * What a call leaves alone *)

Module Observations.
Import GroverQLearner.

(** Everything that learning would change is as it was: the three tables,
    the array of circuits, the operators, the hyperparameters, and every
    circuit object. *)
Definition tables_unchanged {Env Backend} (m m' : @machine Env Backend)
  : Prop :=
  Q_values (self m') = Q_values (self m) /\
  grover_lengths (self m') = grover_lengths (self m) /\
  max_grover_length_reached (self m') = max_grover_length_reached (self m) /\
  action_circuits (self m') = action_circuits (self m) /\
  grover_operators (self m') = grover_operators (self m) /\
  hyperparameters (self m') = hyperparameters (self m) /\
  (forall l c, heap m !! l = Some c -> heap m' !! l = Some c).

(** [Cycle.m0] with [max_epochs] set to 0. *)
Definition m_no_epochs : machine :=
  set_self
    (set_hyperparameters_attr
       {| k := 1 # 10; alpha := 5 # 100; gamma := 99 # 100; eps := 1 # 100;
          max_epochs := 0; max_steps := 3 |} Cycle.learner)
    Cycle.m0.




End Observations.

(** ** Facts about line 75 *)

Module MaxLengthFacts.
Import MaxLength.
Local Open Scope R_scope.

Lemma Int_part_between (x : R) (z : Z) :
  IZR z <= x < IZR z + 1 -> Int_part x = z.
Proof.
  intros [Hlo Hhi]. symmetry. apply Int_part_spec. lra.
Qed.

(** [round_half_even] gives an integer at distance at most 1/2. *)
Lemma round_half_even_nearest (q : Q) :
  (Qabs (inject_Z (round_half_even q) - q) <= 1 # 2)%Q.
Proof.
  unfold round_half_even.
  pose proof (Qfloor_le q) as Hlo. pose proof (Qlt_floor q) as Hhi.
  set (f := Qfloor q) in *.
  rewrite inject_Z_plus in Hhi. change (inject_Z 1) with 1%Q in Hhi.
  apply Qabs_Qle_condition.
  destruct (Qcompare_spec (q - inject_Z f) (1 # 2)) as [He|Hl|Hg].
  - destruct (Z.even f); [|rewrite inject_Z_plus; change (inject_Z 1) with 1%Q];
      split; Lqa.lra.
  - split; Lqa.lra.
  - rewrite inject_Z_plus. change (inject_Z 1) with 1%Q. split; Lqa.lra.
Qed.

(** At distance exactly 1/2 it gives the even neighbour. *)
Lemma round_half_even_tie (q : Q) :
  (Qabs (inject_Z (round_half_even q) - q) == 1 # 2)%Q ->
  Z.even (round_half_even q) = true.
Proof.
  unfold round_half_even.
  pose proof (Qfloor_le q) as Hlo. pose proof (Qlt_floor q) as Hhi.
  set (f := Qfloor q) in *.
  rewrite inject_Z_plus in Hhi. change (inject_Z 1) with 1%Q in Hhi.
  destruct (Qcompare_spec (q - inject_Z f) (1 # 2)) as [He|Hl|Hg];
    intros Habs.
  - destruct (Z.even f) eqn:Hf; [exact Hf|].
    rewrite Z.even_add, Hf. reflexivity.
  - exfalso. rewrite Qabs_neg in Habs by Lqa.lra. Lqa.lra.
  - exfalso.
    rewrite inject_Z_plus in Habs. change (inject_Z 1) with 1%Q in Habs.
    rewrite Qabs_pos in Habs by Lqa.lra. Lqa.lra.
Qed.

(** For every register size that line 75 accepts, the double is finite. *)
Lemma grover_optimum_double_finite (n : Z) :
  (0 <= n <= 63)%Z ->
  exists x : Q, float_value (grover_optimum_double libm_arcsin n) = Some x.
Proof.
  intros Hn.
  assert (Hall :
    forallb (fun n => bool_decide
               (is_Some (float_value (grover_optimum_double libm_arcsin n))))
      (seqZ 0 64) = true) by (vm_compute; reflexivity).
  rewrite forallb_forall in Hall.
  specialize (Hall n). rewrite bool_decide_eq_true in Hall.
  apply Hall. apply list_elem_of_In, elem_of_seqZ. lia.
Qed.

Lemma libm_arcsin_within_one_ulp : within_one_ulp libm_arcsin.
Proof. intros n _. right. left. reflexivity. Qed.

(** Whatever the last bit of [np.arcsin], the length is one of the
    candidates. *)
Lemma max_grover_length_with_candidate (np_arcsin : float -> float) (n : Z) :
  within_one_ulp np_arcsin -> (0 <= n <= 63)%Z ->
  In (max_grover_length_with np_arcsin n) (length_candidates n).
Proof.
  intros Hulp Hn. unfold max_grover_length_with, grover_optimum_double.
  unfold length_candidates.
  apply (in_map (fun a => py_round (optimum_of_angle a))), Hulp, Hn.
Qed.

(** For every register size that line 75 accepts and every candidate, the
    double is finite. *)
Lemma grover_optimum_double_finite_with (np_arcsin : float -> float) (n : Z) :
  within_one_ulp np_arcsin -> (0 <= n <= 63)%Z ->
  exists x : Q, float_value (grover_optimum_double np_arcsin n) = Some x.
Proof.
  intros Hulp Hn.
  assert (Hall :
    forallb (fun n =>
      forallb (fun a => bool_decide (is_Some (float_value (optimum_of_angle a))))
        (arcsin_candidates n))
      (seqZ 0 64) = true) by (vm_compute; reflexivity).
  rewrite forallb_forall in Hall.
  assert (Hi : In n (seqZ 0 64)) by (apply list_elem_of_In, elem_of_seqZ; lia).
  specialize (Hall n Hi). rewrite forallb_forall in Hall.
  specialize (Hall _ (Hulp n Hn)). rewrite bool_decide_eq_true in Hall.
  exact Hall.
Qed.

(** The lengths for the first register sizes: none for no qubit, 1 for
    one and for two qubits, 2 for three. *)
Lemma max_grover_length_first :
  map max_grover_length [0; 1; 2; 3; 4; 5]%Z = [0; 1; 1; 2; 3; 4]%Z.
Proof. vm_compute. reflexivity. Qed.

Lemma max_grover_length_2 : max_grover_length 2 = 1%Z.
Proof. vm_compute. reflexivity. Qed.

Lemma max_grover_length_3 : max_grover_length 3 = 2%Z.
Proof. vm_compute. reflexivity. Qed.

(** With one qubit the exact quantity is the tie 1/2, and the double is
    the library's to decide: with the value of [arcsin] in the table it
    is just above 1/2 and the length is 1; with the next double as the
    value of [arcsin] it is 1/2 and the length is 0. *)
Lemma max_grover_length_1_depends_on_arcsin :
  let y := arcsin_argument 1 in
  libm_arcsin y = 0x1.921fb54442d17p-1%float /\
  max_grover_length_with libm_arcsin 1 = Some 1%Z /\
  max_grover_length_with (fun _ => 0x1.921fb54442d18p-1%float) 1 = Some 0%Z.
Proof. repeat split; vm_compute; reflexivity. Qed.

(** With two qubits the double is just below 1: rounding gives 1, where
    the floor of the double would give 0. *)
Lemma grover_optimum_double_2 :
  grover_optimum_double libm_arcsin 2 = 0x1.ffffffffffffep-1%float /\
  (Qfloor <$> float_value (grover_optimum_double libm_arcsin 2)) = Some 0%Z.
Proof. split; vm_compute; reflexivity. Qed.

(** Three qubits, over the real numbers: the angle [t] has
    [sin t = 1/sqrt 8]; doubling it three times gives cosines 3/4, 1/8 and
    -31/32, which place [4 t] strictly between [5 pi / 12] and [pi / 2]. *)
Lemma grover_angle_3 :
  let t := asin (1 / sqrt (IZR (2 ^ 3))) in
  5 * PI / 12 < 4 * t < PI / 2.
Proof.
  intros t.
  pose proof PI_RGT_0 as Hpi.
  assert (H8 : IZR (2 ^ 3) = 8) by (simpl; lra).
  assert (Hs8 : 1 < sqrt 8).
  { rewrite <- sqrt_1 at 1. apply sqrt_lt_1; lra. }
  assert (Hsq : sqrt 8 * sqrt 8 = 8) by (apply sqrt_sqrt; lra).
  assert (Hx : 0 < 1 / sqrt 8 < 1).
  { split.
    - apply Rdiv_lt_0_compat; lra.
    - apply Rmult_lt_reg_r with (sqrt 8); [lra|].
      unfold Rdiv. rewrite Rmult_assoc, Rinv_l by lra. lra. }
  assert (Hsin : sin t = 1 / sqrt 8).
  { unfold t. rewrite H8. apply sin_asin. lra. }
  assert (Hsin2 : sin t * sin t = 1 / 8).
  { rewrite Hsin. field_simplify; [|lra]. rewrite <- Rsqr_pow2.
    unfold Rsqr. rewrite Hsq. reflexivity. }
  assert (Hb : - (PI / 2) <= t <= PI / 2) by apply asin_bound.
  assert (Ht0 : 0 < t).
  { destruct (Rlt_dec 0 t) as [|Hn]; [assumption|exfalso].
    assert (Hneg : 0 <= sin (- t)).
    { apply sin_ge_0; lra. }
    rewrite sin_neg in Hneg. lra. }
  assert (Hc2 : cos (2 * t) = 3 / 4).
  { rewrite cos_2a_sin, Rmult_assoc, Hsin2. lra. }
  assert (Hc4 : cos (2 * (2 * t)) = 1 / 8).
  { rewrite cos_2a_cos, Rmult_assoc, Hc2. lra. }
  assert (Hc8 : cos (2 * (2 * (2 * t))) = - (31 / 32)).
  { rewrite cos_2a_cos, Rmult_assoc, Hc4. lra. }
  assert (H2 : 2 * t < PI / 2).
  { apply cos_decreasing_0; try lra. rewrite cos_PI2, Hc2. lra. }
  assert (H4 : 2 * (2 * t) < PI / 2).
  { apply cos_decreasing_0; try lra. rewrite cos_PI2, Hc4. lra. }
  assert (Hc56 : cos (5 * PI / 6) = - (sqrt 3 / 2)).
  { replace (5 * PI / 6) with (- (PI / 6) + PI) by lra.
    rewrite neg_cos, <- cos_sym, cos_PI6. reflexivity. }
  assert (Hs3 : sqrt 3 < 31 / 16).
  { rewrite <- (sqrt_square (31 / 16)) by lra. apply sqrt_lt_1; lra. }
  assert (H8t : 5 * PI / 6 < 2 * (2 * (2 * t))).
  { apply cos_decreasing_0; lra. }
  lra.
Qed.

Lemma grover_optimum_3 : 1 + 1 / 2 < grover_optimum 3 < 2.
Proof.
  pose proof grover_angle_3 as Ht. cbv zeta in Ht.
  pose proof PI_RGT_0 as Hpi.
  unfold grover_optimum.
  set (t := asin (1 / sqrt (IZR (2 ^ 3)))) in *.
  assert (Hpos : 0 < 4 * t) by lra.
  assert (Hlo : 2 < PI / (4 * t)).
  { apply Rmult_lt_reg_r with (4 * t); [lra|].
    unfold Rdiv. rewrite Rmult_assoc, Rinv_l by lra. lra. }
  assert (Hhi : PI / (4 * t) < 12 / 5).
  { apply Rmult_lt_reg_r with (4 * t); [lra|].
    unfold Rdiv at 1. rewrite Rmult_assoc, Rinv_l by lra. lra. }
  lra.
Qed.

Lemma max_grover_length_floor_3 : max_grover_length_floor 3 = 1%Z.
Proof.
  unfold max_grover_length_floor.
  pose proof grover_optimum_3 as Hx.
  apply Int_part_between. lra.
Qed.

(** C3, as stated, fails: with three qubits (five to eight actions) line 75
    gives 2, and the floor of the same quantity is 1. *)
Lemma max_grover_length_is_not_floor :
  max_grover_length 3 = 2%Z /\ max_grover_length_floor 3 = 1%Z /\
  ~ (forall n : Z, max_grover_length n = max_grover_length_floor n).
Proof.
  split; [apply max_grover_length_3|].
  split; [apply max_grover_length_floor_3|].
  intros Hall. specialize (Hall 3%Z).
  rewrite max_grover_length_3, max_grover_length_floor_3 in Hall. lia.
Qed.

(** C3, amended: the maximal Grover length is a function of the register
    width alone: line 75 evaluates
    [pi / (4 arcsin (1 / sqrt (2^n))) - 0.5] in double precision and
    rounds the double to the nearest integer, a tie going to the even
    one (Python's [round]), whatever the last bit of [np.arcsin].  For
    four actions the width is 2 and the length is 1, whichever of the
    three doubles around [pi / 6] the library returns for [arcsin(0.5)].
    The rounding is to nearest and not a floor: for the width 3 the length
    is 2, again whichever of the three doubles around the exact angle
    [arcsin] returns, and the floor of the quantity is 1. *)
Theorem max_grover_length_rounds_the_double :
  (forall (np_arcsin : float -> float) (n : Z),
     within_one_ulp np_arcsin ->
     (0 <= n <= 63)%Z ->
     exists x : Q,
       float_value (grover_optimum_double np_arcsin n) = Some x /\
       max_grover_length_with np_arcsin n = Some (round_half_even x) /\
       (Qabs (inject_Z (round_half_even x) - x) <= 1 # 2)%Q /\
       ((Qabs (inject_Z (round_half_even x) - x) == 1 # 2)%Q ->
        Z.even (round_half_even x) = true)) /\
  (forall n : Z,
     (0 <= n <= 63)%Z ->
     max_grover_length_with libm_arcsin n = Some (max_grover_length n)) /\
  action_qregister_size 4 = 2%Z /\
  max_grover_length (action_qregister_size 4) = 1%Z /\
  (forall np_arcsin : float -> float,
     In (np_arcsin 0.5%float)
        [0x1.0c152382d7365p-1; 0x1.0c152382d7366p-1;
         0x1.0c152382d7367p-1]%float ->
     max_grover_length_with np_arcsin 2 = Some 1%Z) /\
  max_grover_length 3 = (max_grover_length_floor 3 + 1)%Z /\
  (forall np_arcsin : float -> float,
     In (np_arcsin 0x1.6a09e667f3bccp-2%float)
        [0x1.720a392c1d953p-2; 0x1.720a392c1d954p-2;
         0x1.720a392c1d955p-2]%float ->
     max_grover_length_with np_arcsin 3 = Some 2%Z).
Proof.
  split; [|split; [|split; [|split; [|split; [|split]]]]].
  - intros f n Hulp Hn.
    destruct (grover_optimum_double_finite_with f n Hulp Hn) as [x Hx].
    exists x. split; [exact Hx|].
    split; [unfold max_grover_length_with, py_round; rewrite Hx; reflexivity|].
    split; [apply round_half_even_nearest|apply round_half_even_tie].
  - intros n Hn.
    destruct (grover_optimum_double_finite n Hn) as [x Hx].
    unfold max_grover_length, max_grover_length_with, py_round.
    rewrite Hx. reflexivity.
  - reflexivity.
  - change (action_qregister_size 4) with 2%Z. apply max_grover_length_2.
  - intros f Hin. unfold max_grover_length_with, grover_optimum_double.
    change (arcsin_argument 2) with 0.5%float.
    destruct Hin as [<-|[<-|[<-|[]]]]; vm_compute; reflexivity.
  - rewrite max_grover_length_3, max_grover_length_floor_3. reflexivity.
  - intros f Hin. unfold max_grover_length_with, grover_optimum_double.
    change (arcsin_argument 3) with 0x1.6a09e667f3bccp-2%float.
    destruct Hin as [<-|[<-|[<-|[]]]]; vm_compute; reflexivity.
Qed.

Lemma max_grover_length_rounds_the_double_witness :
  In (libm_arcsin 0.5%float)
     [0x1.0c152382d7365p-1; 0x1.0c152382d7366p-1;
      0x1.0c152382d7367p-1]%float /\
  max_grover_length_with libm_arcsin 2 = Some 1%Z /\
  In (libm_arcsin 0x1.6a09e667f3bccp-2%float)
     [0x1.720a392c1d953p-2; 0x1.720a392c1d954p-2;
      0x1.720a392c1d955p-2]%float /\
  max_grover_length_with libm_arcsin 3 = Some 2%Z /\
  within_one_ulp libm_arcsin /\
  (0 <= 1 <= 63)%Z /\
  exists x : Q,
    float_value (grover_optimum_double libm_arcsin 1) = Some x /\
    max_grover_length_with libm_arcsin 1 = Some (round_half_even x) /\
    (Qabs (inject_Z (round_half_even x) - x) <= 1 # 2)%Q.
Proof.
  assert (H2 : In (libm_arcsin 0.5%float)
                 [0x1.0c152382d7365p-1; 0x1.0c152382d7366p-1;
                  0x1.0c152382d7367p-1]%float)
    by (right; left; vm_compute; reflexivity).
  assert (H3 : In (libm_arcsin 0x1.6a09e667f3bccp-2%float)
                 [0x1.720a392c1d953p-2; 0x1.720a392c1d954p-2;
                  0x1.720a392c1d955p-2]%float)
    by (right; left; vm_compute; reflexivity).
  assert (Hulp : within_one_ulp libm_arcsin)
    by (intros n _; right; left; reflexivity).
  assert (H1 : (0 <= 1 <= 63)%Z) by lia.
  destruct max_grover_length_rounds_the_double
    as (Hall & _ & _ & _ & Htwo & _ & Hthree).
  split; [exact H2|]. split; [exact (Htwo libm_arcsin H2)|].
  split; [exact H3|]. split; [exact (Hthree libm_arcsin H3)|].
  split; [exact Hulp|]. split; [exact H1|].
  destruct (Hall libm_arcsin 1%Z Hulp H1) as (x & Hx & HM & Hnear & _).
  exists x. auto.
Defined.

End MaxLengthFacts.

(** ** Facts about the methods *)

Module GroverQLearnerFacts.
Import GroverQLearner.

Section Monad.
Context {Env Backend : Type}.
Implicit Types m : @machine Env Backend.

Lemma bind_run {A B} (c : M A) (f : A -> M B) m :
  (c ≫= f) m =
  match c m with
  | (Ok a, m') => f a m'
  | (Raise e, m') => (Raise e, m')
  end.
Proof. reflexivity. Qed.

Lemma bind_Ok {A B} (c : M A) (f : A -> M B) m b m' :
  (c ≫= f) m = (Ok b, m') ->
  exists a m1, c m = (Ok a, m1) /\ f a m1 = (Ok b, m').
Proof.
  rewrite bind_run. destruct (c m) as [[a|e] m1]; [eauto|discriminate].
Qed.

Lemma from_option_Ok {A} (e : exn) (o : option A) m a m' :
  from_option e o m = (Ok a, m') -> o = Some a /\ m' = m.
Proof.
  destruct o as [x|]; cbv [from_option mret M_ret raise];
    intros [= <- <-] || intros [=]; auto.
Qed.

End Monad.

(** Invert a run of [c ≫= f] that returned. *)
Ltac inv_bind H :=
  let a := fresh "a" in
  let m1 := fresh "m" in
  let H1 := fresh "Hrun" in
  apply bind_Ok in H; destruct H as (a & m1 & H1 & H).

(** *** List and index helpers *)

Lemma heap_copy_frame (h : list circuit) (c : circuit) f l x :
  h !! l = Some x -> alter f (length h) (h ++ [c]) !! l = Some x.
Proof.
  intros Hl. pose proof (lookup_lt_Some _ _ _ Hl) as Hlt.
  rewrite list_lookup_alter_ne by lia.
  rewrite lookup_app_l by lia. exact Hl.
Qed.

Lemma heap_copy_last (h : list circuit) (c : circuit) f :
  alter f (length h) (h ++ [c]) = h ++ [f c].
Proof.
  replace (length h) with (length h + 0)%nat by lia.
  rewrite alter_app_r. reflexivity.
Qed.

Lemma norm_index_lt (len i : Z) (n : nat) :
  norm_index len i = Some n -> (Z.of_nat n < len)%Z.
Proof.
  unfold norm_index. repeat case_decide; intros [= <-]; lia.
Qed.

Lemma update_lookup_index {A} (l l' : list A) (i : Z) (x : A) :
  update_index l i x = Some l' -> lookup_index l' i = Some x.
Proof.
  unfold update_index, lookup_index.
  destruct (norm_index _ i) as [n|] eqn:Hn; simpl; [|discriminate].
  intros [= <-]. rewrite length_insert, Hn. simpl.
  apply list_lookup_insert_eq. apply norm_index_lt in Hn. lia.
Qed.

(** *** Indexing, and the loop of lines 147-148 *)

Section Primitives.
Context {Env Backend : Type}.
Implicit Types m : @machine Env Backend.

Lemma getitem_Ok {A} (l : list A) i a m m' :
  getitem l i m = (Ok a, m') -> lookup_index l i = Some a /\ m' = m.
Proof. apply from_option_Ok. Qed.

Lemma setitem_Ok {A} (l : list A) i x l' m m' :
  setitem l i x m = (Ok l', m') -> update_index l i x = Some l' /\ m' = m.
Proof. apply from_option_Ok. Qed.

Lemma getitem2_Ok {A} (t : list (list A)) i j a m m' :
  getitem2 t i j m = (Ok a, m') ->
  (row ← lookup_index t i; lookup_index row j) = Some a /\ m' = m.
Proof.
  unfold getitem2. intros Hrun. inv_bind Hrun.
  apply getitem_Ok in Hrun0 as [E ->]. apply getitem_Ok in Hrun as [E' ->].
  rewrite E. cbn. auto.
Qed.

Lemma setitem2_Ok {A} (t : list (list A)) i j x t' m m' :
  setitem2 t i j x m = (Ok t', m') ->
  (row ← lookup_index t' i; lookup_index row j) = Some x /\ m' = m.
Proof.
  unfold setitem2. intros Hrun. inv_bind Hrun. inv_bind Hrun.
  apply getitem_Ok in Hrun0 as [E ->]. apply setitem_Ok in Hrun1 as [E1 ->].
  apply setitem_Ok in Hrun as [E2 ->].
  apply update_lookup_index in E1, E2. rewrite E2. cbn. auto.
Qed.

Lemma add_gates_add_gates gs1 gs2 c :
  add_gates gs2 (add_gates gs1 c) = add_gates (gs1 ++ gs2) c.
Proof. unfold add_gates. cbn. rewrite app_assoc. reflexivity. Qed.

(** [n] iterations append [n] copies of the operator to the circuit, and a
    loop that runs at least once needs a circuit and an instruction. *)
Lemma append_loop (xs : list Z) (circuit op : cell) (n : Z) m m' :
  for_loop xs
    (fun _ (_ : unit) => circuit_append circuit op n;; mret (tt, false))
    tt m = (Ok tt, m') ->
  (xs = [] /\ m' = m) \/
  exists l o,
    circuit = CircuitRef l /\ op = Instr o /\
    m' = set_heap
           (alter (add_gates (replicate (length xs) (Append o (range n)))) l
              (heap m)) m.
Proof.
  revert m. induction xs as [|x xs IH]; intros m Hrun.
  - left. injection Hrun as <-. auto.
  - right. cbn [for_loop] in Hrun. inv_bind Hrun. destruct a as [[] b].
    inv_bind Hrun0. injection Hrun0 as Em Eb. subst b.
    cbn in Hrun.
    unfold circuit_append in Hrun1. inv_bind Hrun1.
    destruct circuit as [?|l|?]; try discriminate.
    injection Hrun0 as El Em'. subst.
    destruct op as [?|?|o]; try discriminate.
    injection Hrun1 as Em.
    eexists _, _. split; [reflexivity|]. split; [reflexivity|].
    destruct (IH _ Hrun) as [[Exs Em']|(l' & o' & El & Eo & Em')].
    + subst. reflexivity.
    + injection El as <-. injection Eo as <-. subst.
      cbn [heap set_heap length replicate].
      change (set_heap ?h2 (set_heap ?h1 ?m0)) with (set_heap h2 m0).
      f_equal.
      rewrite list_alter_alter_eq.
      apply list_alter_ext; [|reflexivity].
      intros c _. cbn. rewrite add_gates_add_gates. reflexivity.
Qed.

(** Lines 138-151 with the notation mended, for a call that returns:
    [applied] operators are appended to the circuit of the state, where
    [applied] is 0 when any action of the state is saturated and
    [min(recorded length, maximum)] otherwise; the flag of the pair is set
    when that minimum is the maximum and no action of the state is
    saturated. *)
Lemma run_grover_iterations_mended m m' :
  _run_grover_iterations Mended m = (Ok tt, m') ->
  exists gl circuit op row,
    (r ← lookup_index (grover_lengths (self m)) (state (self m));
     lookup_index r (action (self m))) = Some gl /\
    lookup_index (action_circuits (self m)) (state (self m))
      = Some circuit /\
    lookup_index (grover_operators (self m)) (action (self m)) = Some op /\
    lookup_index (max_grover_length_reached (self m)) (state (self m))
      = Some row /\
    let length := Z.min gl (max_grover_length (self m)) in
    let applied := if any row then 0%nat else Z.to_nat length in
    ((applied = 0%nat /\ heap m' = heap m) \/
     exists l o,
       circuit = CircuitRef l /\ op = Instr o /\
       heap m'
       = alter
           (add_gates
              (replicate applied
                 (Append o (range (action_qregister_size (self m))))))
           l (heap m)) /\
    (if (length =? max_grover_length (self m))%Z && negb (any row)
     then (r ← lookup_index (max_grover_length_reached (self m'))
                 (state (self m));
           lookup_index r (action (self m))) = Some true
     else max_grover_length_reached (self m')
          = max_grover_length_reached (self m)) /\
    jobs m' = jobs m.
Proof.
  unfold _run_grover_iterations. intros Hrun.
  inv_bind Hrun. injection Hrun0 as <- <-.
  inv_bind Hrun. cbn [call_grover_length] in Hrun0. inv_bind Hrun0.
  injection Hrun1 as <- <-. apply getitem2_Ok in Hrun0 as [Egl ->].
  cbn zeta in Hrun.
  inv_bind Hrun. apply getitem_Ok in Hrun0 as [Ec ->].
  inv_bind Hrun. apply getitem_Ok in Hrun0 as [Eo ->].
  inv_bind Hrun. apply getitem_Ok in Hrun0 as [Er ->].
  rename a into gl, a0 into circuit, a1 into op, a2 into row.
  exists gl, circuit, op, row.
  do 4 (split; [assumption|]).
  inv_bind Hrun. rename m0 into ma, Hrun0 into Hloop.
  inv_bind Hrun. rename m0 into mb, Hrun0 into Hflag.
  inv_bind Hrun. injection Hrun0 as <- <-.
  inv_bind Hrun. apply setitem_Ok in Hrun0 as [_ ->].
  injection Hrun as <-. cbn [heap jobs self set_self
    max_grover_length_reached set_action_circuits].
  assert (Hma : self ma = self m /\ jobs ma = jobs m /\
    ((if any row then 0%nat
      else Z.to_nat (gl `min` max_grover_length (self m))) = 0%nat /\
     heap ma = heap m \/
     exists l o,
       circuit = CircuitRef l /\ op = Instr o /\
       heap ma
       = alter
           (add_gates
              (replicate
                 (if any row then 0%nat
                  else Z.to_nat (gl `min` max_grover_length (self m)))
                 (Append o (range (action_qregister_size (self m))))))
           l (heap m))).
  { destruct (any row); cbn in Hloop.
    - injection Hloop as _ <-. auto.
    - inv_bind Hloop. injection Hrun as <- <-. destruct a.
      apply append_loop in Hloop
        as [[Hnil ->]|(l & o & -> & -> & ->)].
      + split; [reflexivity|]. split; [reflexivity|]. left.
        split; [|reflexivity].
        apply (f_equal length) in Hnil. unfold range in Hnil.
        rewrite length_seqZ in Hnil. exact Hnil.
      + split; [reflexivity|]. split; [reflexivity|]. right.
        exists l, o. unfold range at 1. rewrite length_seqZ. auto. }
  destruct Hma as (Hself & Hjobs & Hheap).
  assert (Hmb : heap mb = heap ma /\ jobs mb = jobs ma /\
    (if (gl `min` max_grover_length (self m) =? max_grover_length (self m))%Z
        && negb (any row)
     then (r ← lookup_index (max_grover_length_reached (self mb))
                 (state (self m));
           lookup_index r (action (self m))) = Some true
     else max_grover_length_reached (self mb)
          = max_grover_length_reached (self m))).
  { destruct (_ && _); cbn in Hflag.
    - inv_bind Hflag. apply setitem2_Ok in Hrun as [Hset ->].
      injection Hflag as _ <-. cbn. auto.
    - injection Hflag as _ <-. rewrite Hself. auto. }
  destruct Hmb as (Hheap' & Hjobs' & Hflags).
  rewrite Hheap', Hjobs', Hjobs. auto.
Qed.

(** Line 159 with the notation mended, for a call that returns: the entry
    of the pair becomes the Bellman update and nothing else changes. *)
Lemma update_Q_values_mended reward new_state m m' :
  _update_Q_values Mended reward new_state m = (Ok tt, m') ->
  exists q x l t,
    (r ← lookup_index (Q_values (self m)) (state (self m));
     lookup_index r (action (self m))) = Some q /\
    lookup_index (Q_values (self m)) new_state = Some (x :: l) /\
    (r ← lookup_index t (state (self m));
     lookup_index r (action (self m)))
    = Some (q + alpha (hyperparameters (self m))
                * (reward + gamma (hyperparameters (self m)) * max_of_row x l
                   - q))%Q /\
    m' = set_self (set_Q_values t (self m)) m.
Proof.
  unfold _update_Q_values. intros Hrun.
  inv_bind Hrun. injection Hrun0 as <- <-. cbn zeta in Hrun.
  inv_bind Hrun. apply getitem2_Ok in Hrun0 as [Eq ->].
  inv_bind Hrun. cbn [attr_Q_value] in Hrun0. inv_bind Hrun0.
  injection Hrun1 as <- <-. injection Hrun0 as <- <-.
  inv_bind Hrun. apply getitem_Ok in Hrun0 as [Erow ->].
  inv_bind Hrun. destruct a0 as [|x l]; [discriminate|].
  injection Hrun0 as <- <-.
  inv_bind Hrun. apply getitem2_Ok in Hrun0 as [Eq' ->].
  inv_bind Hrun. cbn [attr_Q_value] in Hrun0. inv_bind Hrun0.
  injection Hrun1 as <- <-. injection Hrun0 as <- <-.
  inv_bind Hrun. apply setitem2_Ok in Hrun0 as [Eset ->].
  injection Hrun as <-.
  assert (a0 = a) as -> by congruence.
  exists a, x, l, a1. auto.
Qed.

Lemma update_index_nat {A} (l : list A) (j : nat) (x : A) :
  (j < length l)%nat ->
  update_index l (Z.of_nat j) x = Some (<[j := x]> l).
Proof.
  intros Hj. unfold update_index, norm_index.
  destruct (decide _) as [_|Hn]; [|lia].
  cbn. rewrite Nat2Z.id. reflexivity.
Qed.

(** The loop of lines 100-101, from state [j] on, with [k] states to go. *)
Lemma alloc_loop (n : Z) (h0 : nat) (k : nat) :
  forall (j : nat) m arr' m',
    length (heap m) = (h0 + j)%nat ->
    for_loop (seqZ (Z.of_nat j) (Z.of_nat k))
      (fun s (arr : list cell) =>
         l ← alloc (QuantumCircuit n s);
         arr' ← store_object Mended arr s (CircuitRef l);
         mret (arr', false))
      (map (fun i => CircuitRef (h0 + i)) (seq 0 j) ++ replicate k (Float 0))
      m = (Ok arr', m') ->
    arr' = map (fun i => CircuitRef (h0 + i)) (seq 0 (j + k)) /\
    m' = set_heap (heap m ++ map (QuantumCircuit n)
                                 (seqZ (Z.of_nat j) (Z.of_nat k))) m.
Proof.
  induction k as [|k IH]; intros j m arr' m' Hh Hrun.
  - cbn in Hrun. injection Hrun as <- <-.
    rewrite Nat.add_0_r, !app_nil_r. destruct m; auto.
  - rewrite seqZ_cons in Hrun by lia. cbn [for_loop] in Hrun.
    inv_bind Hrun. inv_bind Hrun0. injection Hrun1 as <- <-.
    inv_bind Hrun0. cbn [store_object] in Hrun1.
    apply setitem_Ok in Hrun1 as [Hup ->].
    injection Hrun0 as <- <-. cbn [snd fst] in Hrun.
    rewrite update_index_nat in Hup.
    2:{ rewrite length_app, length_map, length_seq, length_replicate. lia. }
    injection Hup as <-.
    replace (Z.succ (Z.of_nat j)) with (Z.of_nat (S j)) in Hrun by lia.
    replace (Z.pred (Z.of_nat (S k))) with (Z.of_nat k) in Hrun by lia.
    rewrite insert_app_r_alt in Hrun
      by (rewrite length_map, length_seq; lia).
    rewrite length_map, length_seq, Nat.sub_diag in Hrun. cbn [replicate] in Hrun.
    change (<[0%nat:=?x]> (?y :: ?l)) with (x :: l) in Hrun.
    rewrite (cons_middle _ (map _ _)), app_assoc in Hrun.
    rewrite Hh in Hrun.
    replace (map (fun i => CircuitRef (h0 + i)) (seq 0 j) ++ [CircuitRef (h0 + j)])
      with (map (fun i => CircuitRef (h0 + i)) (seq 0 (S j))) in Hrun
      by (rewrite seq_S, map_app; reflexivity).
    apply IH in Hrun as [-> ->].
    2:{ cbn. rewrite length_app. cbn. lia. }
    split; [f_equal; f_equal; lia|].
    cbn [heap set_heap].
    rewrite (seqZ_cons (Z.of_nat j) (Z.of_nat (S k))) by lia.
    replace (Z.succ (Z.of_nat j)) with (Z.of_nat (S j)) by lia.
    replace (Z.pred (Z.of_nat (S k))) with (Z.of_nat k) by lia.
    cbn [map]. rewrite <- app_assoc. reflexivity.
Qed.

(** The loop of lines 102-103 over the references [h0 + j ..], for a
    list of qubits that is not empty. *)
Lemma hadamard_loop (qargs : list Z) (h0 : nat) (k : nat) :
  qargs <> [] ->
  forall (j : nat) (pre mid post : list circuit) m m',
    heap m = pre ++ mid ++ post ->
    length pre = (h0 + j)%nat -> length mid = k ->
    for_loop (map (fun i => CircuitRef (h0 + i)) (seq j k))
      (fun circuit (_ : unit) =>
         circuit_h circuit qargs;;
         mret (tt, false))
      tt m = (Ok tt, m') ->
    m' = set_heap (pre ++ map (add_gates (map H qargs)) mid ++ post) m.
Proof.
  intros Hq.
  induction k as [|k IH]; intros j pre mid post m m' Hh Hpre Hmid Hrun.
  - destruct mid; [|discriminate]. cbn in Hrun. injection Hrun as <-.
    cbn [map]. rewrite <- Hh. destruct m; reflexivity.
  - destruct mid as [|c mid]; [discriminate|]. injection Hmid as Hmid.
    cbn [seq map for_loop] in Hrun.
    inv_bind Hrun. inv_bind Hrun0. unfold circuit_h in Hrun1.
    inv_bind Hrun1. injection Hrun2 as <- <-.
    destruct qargs as [|q qargs]; [congruence|].
    injection Hrun1 as _ <-. injection Hrun0 as <- <-.
    cbn [snd fst] in Hrun.
    eapply (IH (S j) (pre ++ [add_gates (map H (q :: qargs)) c]) mid post)
      in Hrun.
    + rewrite Hrun. cbn [set_heap heap self jobs env backend].
      rewrite <- app_assoc. reflexivity.
    + cbn [heap set_heap]. rewrite Hh, <- Hpre.
      rewrite alter_app_r_alt by lia. rewrite Nat.sub_diag.
      cbn. rewrite <- app_assoc. reflexivity.
    + rewrite length_app. cbn. lia.
    + exact Hmid.
Qed.

(** Lines 95-104 with the arrays read as object arrays, for a call that
    returns: one fresh circuit per state, each with a Hadamard gate on
    every qubit, and the array of their references.  (With states and no
    qubit the call does not return: line 103 raises.) *)
Lemma init_action_circuits_mended m arr m' :
  _init_action_circuits Mended m = (Ok arr, m') ->
  arr = map (fun i => CircuitRef (length (heap m) + i))
            (seq 0 (Z.to_nat (state_dimension (self m)))) /\
  m' = set_heap
         (heap m
          ++ map (fun s =>
                    add_gates
                      (map H (range (action_qregister_size (self m))))
                      (QuantumCircuit (action_qregister_size (self m)) s))
                 (range (state_dimension (self m)))) m.
Proof.
  unfold _init_action_circuits. intros Hrun.
  inv_bind Hrun. injection Hrun0 as <- <-.
  inv_bind Hrun. unfold np_zeros in Hrun0.
  destruct (decide (state_dimension (self m) < 0)%Z) as [|HS];
    [discriminate|].
  injection Hrun0 as <- <-.
  inv_bind Hrun. rename Hrun0 into Hloop1.
  inv_bind Hrun. rename Hrun0 into Hloop2.
  injection Hrun as <- <-.
  unfold range in Hloop1 at 1.
  replace (state_dimension (self m))
    with (Z.of_nat (Z.to_nat (state_dimension (self m)))) in Hloop1 at 1
    by lia.
  apply (alloc_loop _ (length (heap m)) _ 0) in Hloop1 as [-> ->];
    [|lia].
  split; [reflexivity|].
  match type of Hloop2 with _ = (Ok ?u, _) => destruct u end.
  change (Z.of_nat 0) with 0%Z in Hloop2.
  rewrite Z2Nat.id in Hloop2 by lia. cbn [Nat.add] in Hloop2.
  destruct (range (action_qregister_size (self m))) as [|q qargs] eqn:Hq.
  - (* no qubit: the loop of line 102 returns only when it is empty *)
    destruct (Z.to_nat (state_dimension (self m))) as [|k] eqn:Hk.
    + cbn in Hloop2. injection Hloop2 as <-.
      unfold range. replace (state_dimension (self m)) with 0%Z by lia.
      cbn. rewrite !app_nil_r. destruct m; reflexivity.
    + cbn [seq map for_loop] in Hloop2.
      inv_bind Hloop2. inv_bind Hrun. unfold circuit_h in Hrun0.
      inv_bind Hrun0. discriminate.
  - apply (hadamard_loop (q :: qargs) (length (heap m)) _
             ltac:(discriminate) 0
             (heap m)
             (map (QuantumCircuit (action_qregister_size (self m)))
                (range (state_dimension (self m)))) []) in Hloop2.
    + rewrite Hloop2. cbn [set_heap heap self jobs env backend].
      rewrite app_nil_r, map_map. reflexivity.
    + cbn [heap set_heap]. rewrite app_nil_r. reflexivity.
    + lia.
    + unfold range. rewrite length_map, length_seqZ. reflexivity.
Qed.

End Primitives.

Section Claims.
Context {Env Backend : Type}.
Variable env_reset : Env -> Z * Env.
Variable env_step : Z -> Env -> (Z * Q * bool * bool) * Env.
Variable backend_run :
  circuit -> Z -> Backend -> list (list bool * Z) * Backend.
Implicit Types m : @machine Env Backend.

(** *** [set_hyperparameters] *)

(** The constructor ends by assigning the defaults: when it returns, they
    are the hyperparameters of the agent. *)
Lemma init_hyperparameters S A rd m m' :
  __init__ env_reset S A rd m = (Ok tt, m') ->
  hyperparameters (self m') = default_hyperparameters.
Proof.
  unfold __init__. intros Hrun.
  repeat (inv_bind Hrun).
  cbv [modify_self] in Hrun. injection Hrun as <-. reflexivity.
Qed.

(** C10: the setter is a no-op.  Any sequence of calls, with any
    arguments, returns [None] each time and leaves the whole machine, and
    so [self.hyperparameters], as it was; on an agent that the constructor
    has built these are the values that lines 81-88 put there: 0.1, 0.05,
    0.99, 0.01, 1000 and 100. *)
Theorem set_hyperparameters_is_a_no_op {P} (calls : list P) m :
  for_loop calls
    (fun params (_ : unit) => set_hyperparameters params;; mret (tt, false))
    tt m = (Ok tt, m) /\
  (forall params : P, set_hyperparameters params m = (Ok tt, m)) /\
  (forall S A rd m0,
     __init__ env_reset S A rd m0 = (Ok tt, m) ->
     hyperparameters (self m) = default_hyperparameters) /\
  default_hyperparameters =
    {| k := 1 # 10; alpha := 5 # 100; gamma := 99 # 100; eps := 1 # 100;
       max_epochs := 1000; max_steps := 100 |}.
Proof.
  split; [|split; [reflexivity|split; [|reflexivity]]].
  - induction calls as [|p calls IH]; [reflexivity|].
    cbn [for_loop]. rewrite bind_run. exact IH.
  - intros S A rd m0. apply init_hyperparameters.
Qed.

(** *** [_take_action] *)

Lemma take_action_frame m r m' :
  _take_action backend_run m = (r, m') ->
  self m' = self m /\ env m' = env m /\
  (forall l c, heap m !! l = Some c -> heap m' !! l = Some c) /\
  (jobs m' = jobs m \/ exists c, jobs m' = jobs m ++ [(c, 1%Z)]).
Proof.
  cbv [_take_action getitem circuit_method deref alloc mutate execute submit
       mbind M_bind mret M_ret raise from_option get_self].
  intros Hrun.
  repeat case_match; simplify_eq; cbn;
    (split; [reflexivity|split; [reflexivity|split; [|eauto]]]);
    try (intros; apply heap_copy_frame; assumption); eauto.
Qed.

Lemma take_action_returns m a m' :
  _take_action backend_run m = (Ok a, m') ->
  exists l c,
    lookup_index (action_circuits (self m)) (state (self m))
      = Some (CircuitRef l) /\
    heap m !! l = Some c /\
    heap m' = heap m ++ [measure_all c] /\
    jobs m' = jobs m ++ [(measure_all c, 1%Z)].
Proof.
  cbv [_take_action getitem circuit_method deref alloc mutate execute submit
       mbind M_bind mret M_ret raise from_option get_self].
  intros Hrun.
  repeat case_match; simplify_eq; cbn in *.
  all: match goal with
       | Hc : alter _ _ _ !! _ = Some _ |- _ =>
           rewrite heap_copy_last in Hc;
           rewrite lookup_app_r in Hc by lia;
           rewrite Nat.sub_diag in Hc; cbn in Hc; simplify_eq
       end.
  all: eexists _, _; rewrite heap_copy_last; eauto.
Qed.

(** C9: choosing an action does not touch the stored circuits.  Whatever
    the call does, the agent (and with it the array [action_circuits]) and
    every circuit object that existed before are as they were; the
    measurements go to a copy.  When the call returns an action, it has
    issued exactly one backend execution, of that copy, with one shot. *)
Theorem take_action_leaves_the_circuits m r m' :
  _take_action backend_run m = (r, m') ->
  self m' = self m /\
  (forall l c, heap m !! l = Some c -> heap m' !! l = Some c) /\
  (jobs m' = jobs m \/ exists c, jobs m' = jobs m ++ [(c, 1%Z)]) /\
  (forall a, r = Ok a ->
     exists l c,
       lookup_index (action_circuits (self m)) (state (self m))
         = Some (CircuitRef l) /\
       heap m !! l = Some c /\
       heap m' = heap m ++ [measure_all c] /\
       jobs m' = jobs m ++ [(measure_all c, 1%Z)]).
Proof.
  intros Hrun.
  destruct (take_action_frame _ _ _ Hrun) as (Hself & _ & Hheap & Hjobs).
  repeat split; try assumption.
  intros a ->. eapply take_action_returns, Hrun.
Qed.

(** *** [_run_grover_iterations] and [_update_Q_values] as written *)

Lemma run_grover_iterations_as_written m :
  _run_grover_iterations AsWritten m
  = (Raise (AttributeError "grover_length"), m).
Proof. reflexivity. Qed.

Lemma update_Q_values_as_written reward new_state m :
  exists e, _update_Q_values AsWritten reward new_state m = (Raise e, m).
Proof.
  cbv [_update_Q_values getitem2 getitem attr_Q_value
       mbind M_bind mret M_ret raise from_option get_self].
  repeat case_match; simplify_eq; eauto.
Qed.

(** *** [_init_action_circuits] as written *)

(** C8: [_init_action_circuits] as written returns no circuits.  With at
    least one state, storing the first circuit in the array that
    [np.zeros] made raises. *)
Theorem init_action_circuits_raises m :
  (1 <= state_dimension (self m))%Z ->
  (_init_action_circuits AsWritten m).1 = Raise ArrayStoreError.
Proof.
  intros HS.
  cbv [_init_action_circuits np_zeros mbind M_bind mret M_ret raise get_self].
  destruct (decide (state_dimension (self m) < 0)%Z) as [|_]; [lia|].
  unfold range. rewrite seqZ_cons by lia.
  cbn [for_loop].
  cbv [alloc store_object getitem from_option lookup_index norm_index
       mbind M_bind mret M_ret raise get_self].
  rewrite length_replicate.
  destruct (decide _) as [|Hn]; [|lia].
  cbn.
  destruct (Z.to_nat (state_dimension (self m))) eqn:E; [lia|]. reflexivity.
Qed.

(** *** [train] as written *)

Lemma train_epoch_as_written epoch fr m :
  exists e m',
    train_epoch env_reset env_step backend_run AsWritten epoch fr m
    = (Raise e, m').
Proof.
  unfold train_epoch. rewrite bind_run.
  destruct (epoch_start env_reset fr m) as [[fr1|e] m1]; [|eauto].
  rewrite bind_run.
  destruct (for_loop _ _ _ m1) as [[fr2|e] m2]; [|eauto].
  rewrite bind_run. cbn. eauto.
Qed.

(** C7: [train] as written does not return when there is an epoch to run.
    Lines 203-205 subscript the bound method [append], which raises at the
    end of the first epoch; with steps to take, line 195 raises before
    that. *)
Theorem train_never_returns m :
  (1 <= max_epochs (hyperparameters (self m)))%Z ->
  exists e m',
    train env_reset env_step backend_run AsWritten m = (Raise e, m').
Proof.
  intros Hep. unfold train. rewrite bind_run. cbn [get_self].
  unfold range. rewrite seqZ_cons by lia. cbn [for_loop].
  rewrite !bind_run.
  match goal with
  | |- context [train_epoch _ _ _ _ ?ep ?fr m] =>
      destruct (train_epoch_as_written ep fr m) as (e & m' & ->)
  end.
  eauto.
Qed.

(** *** The steps of [train] as written *)





(** *** A saturated row *)

Lemma add_gates_nil c : add_gates [] c = c.
Proof. destruct c. unfold add_gates. cbn. rewrite app_nil_r. reflexivity. Qed.

(** When some action of the state is saturated, the mended method leaves
    the heap and the flags as they are, whichever the action. *)
Lemma run_grover_iterations_frozen_row m m' row :
  _run_grover_iterations Mended m = (Ok tt, m') ->
  lookup_index (max_grover_length_reached (self m)) (state (self m))
    = Some row ->
  any row = true ->
  heap m' = heap m /\
  max_grover_length_reached (self m') = max_grover_length_reached (self m).
Proof.
  intros Hrun Hrow Hany.
  destruct (run_grover_iterations_mended _ _ Hrun)
    as (gl & circuit & op & row' & _ & _ & _ & Er & Hheap & Hflag & _).
  assert (row' = row) as -> by congruence.
  rewrite Hany in Hheap, Hflag. rewrite andb_false_r in Hflag.
  split; [|exact Hflag].
  destruct Hheap as [[_ Hh]|(l & o & _ & _ & Hh)]; [exact Hh|].
  rewrite Hh. apply list_alter_id. intros c. apply add_gates_nil.
Qed.

Lemma init_grover_operators_as_written m :
  (1 <= action_dimension (self m))%Z ->
  (_init_grover_operators AsWritten m).1 = Raise ArrayStoreError.
Proof.
  intros HA.
  cbv [_init_grover_operators np_zeros mbind M_bind mret M_ret raise get_self].
  destruct (decide (action_dimension (self m) < 0)%Z) as [|_]; [lia|].
  unfold range. rewrite seqZ_cons by lia.
  cbn [for_loop].
  cbv [store_object getitem from_option lookup_index norm_index
       mbind M_bind mret M_ret raise].
  rewrite length_replicate.
  destruct (decide _) as [|Hn]; [|lia].
  cbn.
  destruct (Z.to_nat (action_dimension (self m))) eqn:E; [lia|]. reflexivity.
Qed.

(** The constructor as written never returns: line 74 raises for an empty
    action space, and otherwise line 76 or the first store of line 115
    does. *)
Lemma init_as_written S A m :
  exists e m', __init__ env_reset S A AsWritten m = (Raise e, m').
Proof.
  destruct (__init__ env_reset S A AsWritten m) as [[u|e] m'] eqn:Hrun;
    [exfalso|eauto].
  unfold __init__ in Hrun.
  repeat (inv_bind Hrun).
  assert (HA : (1 <= A)%Z).
  { match goal with
    | Hn : ceil_log2 _ _ = (Ok _, _) |- _ =>
        unfold ceil_log2 in Hn;
        destruct (decide (A = 0)%Z); [discriminate|];
        destruct (decide (A < 0)%Z); [discriminate|lia]
    end. }
  repeat match goal with
         | Hm : modify_self _ _ = (Ok _, _) |- _ => injection Hm as _ <-
         end.
  repeat match goal with
         | Hn : ceil_log2 _ _ = (Ok _, _) |- _ =>
             unfold ceil_log2 in Hn; repeat case_decide; try discriminate;
             injection Hn as _ <-
         | Hz : np_zeros2 _ _ _ _ = (Ok _, _) |- _ =>
             unfold np_zeros2 in Hz; case_decide; try discriminate;
             injection Hz as _ <-
         end.
  match goal with
  | Hops : _init_grover_operators AsWritten ?m0 = (Ok _, _) |- _ =>
      pose proof (init_grover_operators_as_written m0) as Hraise;
      rewrite Hops in Hraise; cbn in Hraise
  end.
  specialize (Hraise HA). discriminate.
Qed.

End Claims.

(** *** The loops of [train] *)

Section Loops.
Context {Env Backend : Type}.
Variable env_reset : Env -> Z * Env.
Variable env_step : Z -> Env -> (Z * Q * bool * bool) * Env.
Variable backend_run :
  circuit -> Z -> Backend -> list (list bool * Z) * Backend.
Variable rd : reading.
Implicit Types m : @machine Env Backend.

Lemma shape_reward_frame cur S step new_state reward done fr :
  let fr' := (shape_reward cur S step new_state reward done fr).2 in
  trajectory fr' = trajectory fr /\
  (optimal_steps fr' = optimal_steps fr \/ optimal_steps fr' = (step + 1)%Z) /\
  steps_in_all_epochs fr' = steps_in_all_epochs fr /\
  target_reached_in_all_epochs fr' = target_reached_in_all_epochs fr /\
  trajectories_in_all_epochs fr' = trajectories_in_all_epochs fr.
Proof.
  unfold shape_reward.
  repeat case_match; cbn; auto 10.
Qed.

(** A step appends one state to the trajectory, may set [optimal_steps] to
    [step + 1], and leaves the three result lists alone. *)
Lemma train_step_frame step fr m fr' brk m' :
  train_step env_step backend_run rd step fr m = (Ok (fr', brk), m') ->
  (exists s, trajectory fr' = trajectory fr ++ [s]) /\
  (optimal_steps fr' = optimal_steps fr \/ optimal_steps fr' = (step + 1)%Z) /\
  steps_in_all_epochs fr' = steps_in_all_epochs fr /\
  target_reached_in_all_epochs fr' = target_reached_in_all_epochs fr /\
  trajectories_in_all_epochs fr' = trajectories_in_all_epochs fr.
Proof.
  unfold train_step. intros Hrun.
  repeat (inv_bind Hrun).
  match type of Hrun with
  | context [shape_reward ?c ?S ?st ?ns ?r ?d ?f] =>
      pose proof (shape_reward_frame c S st ns r d f) as Hsh;
      destruct (shape_reward c S st ns r d f) as [[reward' done'] fr1]
  end.
  cbn in Hsh, Hrun. destruct Hsh as (Ht & Ho & H1 & H2 & H3).
  assert (exists s, fr' = set_trajectory (trajectory fr1 ++ [s]) fr1)
    as [s ->].
  { destruct done'; cbn in Hrun.
    - injection Hrun as <- _ _. eauto.
    - inv_bind Hrun. injection Hrun as <- _ _. eauto. }
  cbn. rewrite Ht. eauto 10.
Qed.

Lemma step_loop_frame (lo hi : Z) l fr m fr' m' :
  Forall (fun i => lo <= i < hi)%Z l ->
  for_loop l (train_step env_step backend_run rd) fr m = (Ok fr', m') ->
  exists n : nat,
    (n <= length l)%nat /\
    length (trajectory fr') = (length (trajectory fr) + n)%nat /\
    (optimal_steps fr' = optimal_steps fr \/
     (lo + 1 <= optimal_steps fr' <= hi)%Z) /\
    steps_in_all_epochs fr' = steps_in_all_epochs fr /\
    target_reached_in_all_epochs fr' = target_reached_in_all_epochs fr /\
    trajectories_in_all_epochs fr' = trajectories_in_all_epochs fr /\
    (n = length l \/
     exists step fr1 m1 m2,
       train_step env_step backend_run rd step fr1 m1 = (Ok (fr', true), m2)).
Proof.
  intros Hl. revert fr m.
  induction Hl as [|i l Hi Hl IH]; intros fr m Hrun.
  - injection Hrun as <- _. exists 0%nat. rewrite Nat.add_0_r. auto 10.
  - cbn [for_loop] in Hrun. inv_bind Hrun.
    destruct a as [fr1 brk]. cbn in Hrun.
    pose proof (train_step_frame _ _ _ _ _ _ Hrun0)
      as ([s Ht] & Ho & H1 & H2 & H3).
    destruct brk.
    + injection Hrun as <- <-. exists 1%nat. cbn [length].
      rewrite Ht, length_app. cbn.
      split; [lia|]. split; [lia|]. split; [lia|].
      repeat split; try assumption. right. eauto.
    + destruct (IH _ _ Hrun) as (n & Hn & Hlen & Hopt & E1 & E2 & E3 & Hexit).
      exists (S n). cbn [length].
      rewrite Hlen, Ht, length_app. cbn.
      split; [lia|]. split; [lia|]. split; [lia|].
      split; [congruence|]. split; [congruence|]. split; [congruence|].
      destruct Hexit as [->|Hexit]; [left; reflexivity|right; exact Hexit].
Qed.

Lemma range_bounds (n : Z) : Forall (fun i => 0 <= i < n)%Z (range n).
Proof.
  apply list.Forall_forall. intros i Hi. unfold range in Hi.
  apply list_elem_of_lookup in Hi as [j Hj].
  apply lookup_seqZ in Hj. lia.
Qed.

(** An epoch that completes: the number of steps is at most the value of
    [optimal_steps] it was entered with, the loop stops short of that only
    through [break], and one entry goes to each of the three lists. *)
Lemma train_epoch_frame epoch fr m fr' b m' :
  train_epoch env_reset env_step backend_run rd epoch fr m
    = (Ok (fr', b), m') ->
  b = false /\
  (exists n : nat,
     length (trajectory fr') = S n /\
     (n <= Z.to_nat (optimal_steps fr))%nat /\
     (n = Z.to_nat (optimal_steps fr) \/
      exists step fr1 m1 fr2 m2,
        train_step env_step backend_run rd step fr1 m1
          = (Ok (fr2, true), m2) /\
        trajectory fr2 = trajectory fr')) /\
  (optimal_steps fr' = optimal_steps fr \/
   (1 <= optimal_steps fr' <= optimal_steps fr)%Z) /\
  steps_in_all_epochs fr' = steps_in_all_epochs fr ++ [optimal_steps fr'] /\
  target_reached_in_all_epochs fr'
    = target_reached_in_all_epochs fr ++ [target_reached fr'] /\
  trajectories_in_all_epochs fr'
    = trajectories_in_all_epochs fr ++ [trajectory fr'].
Proof.
  unfold train_epoch. intros Hrun.
  inv_bind Hrun. rename a into fr0.
  assert (Hstart : exists s0,
             fr0 = set_trajectory [s0] (set_target_reached false fr)).
  { unfold epoch_start in Hrun0. repeat (inv_bind Hrun0).
    injection Hrun0 as <- _. eauto. }
  destruct Hstart as [s0 ->].
  inv_bind Hrun. rename a into fr1.
  apply (step_loop_frame 0 (optimal_steps fr)) in Hrun1;
    [|apply range_bounds].
  destruct Hrun1 as (n & Hn & Hlen & Hopt & E1 & E2 & E3 & Hexit).
  cbn in Hlen, Hopt, E1, E2, E3.
  unfold range in Hn. rewrite length_seqZ in Hn. cbn in Hn.
  destruct rd; cbn in Hrun; [discriminate|].
  injection Hrun as <- <- _. cbn.
  split; [reflexivity|].
  rewrite E1, E2, E3.
  split; [|split; [|auto]].
  - exists n. rewrite Hlen. split; [reflexivity|]. split; [lia|].
    destruct Hexit as [->|(step & f1 & ma & mb & Hbrk)].
    + left. unfold range. rewrite length_seqZ. reflexivity.
    + right. eauto 10.
  - destruct Hopt as [Hopt|Hopt]; [left; exact Hopt|right; lia].
Qed.

Lemma epoch_loop_frame l fr m fr' m' :
  for_loop l (train_epoch env_reset env_step backend_run rd) fr m
    = (Ok fr', m') ->
  exists steps flags trajs,
    steps_in_all_epochs fr' = steps_in_all_epochs fr ++ steps /\
    target_reached_in_all_epochs fr'
      = target_reached_in_all_epochs fr ++ flags /\
    trajectories_in_all_epochs fr' = trajectories_in_all_epochs fr ++ trajs /\
    length steps = length l /\ length flags = length l /\
    length trajs = length l /\
    step_limits env_step backend_run rd (optimal_steps fr) steps trajs.
Proof.
  revert fr m. induction l as [|i l IH]; intros fr m Hrun.
  - injection Hrun as <- _. exists [], [], [].
    rewrite !app_nil_r. cbn. auto 10.
  - cbn [for_loop] in Hrun. inv_bind Hrun. destruct a as [fr1 b].
    destruct (train_epoch_frame _ _ _ _ _ _ Hrun0)
      as (-> & Hsteps & Hopt & E1 & E2 & E3).
    cbn in Hrun.
    destruct (IH _ _ Hrun)
      as (ss & fs & ts & F1 & F2 & F3 & L1 & L2 & L3 & Hlim).
    exists (optimal_steps fr1 :: ss), (target_reached fr1 :: fs),
      (trajectory fr1 :: ts).
    rewrite F1, F2, F3, E1, E2, E3, <- !app_assoc. cbn.
    repeat split; try reflexivity; try congruence; assumption.
Qed.

Lemma train_frame m steps flags trajs m' :
  train env_reset env_step backend_run rd m
    = (Ok (steps, flags, trajs), m') ->
  length steps = Z.to_nat (max_epochs (hyperparameters (self m))) /\
  length flags = Z.to_nat (max_epochs (hyperparameters (self m))) /\
  length trajs = Z.to_nat (max_epochs (hyperparameters (self m))) /\
  step_limits env_step backend_run rd
    (max_steps (hyperparameters (self m))) steps trajs.
Proof.
  unfold train. intros Hrun.
  inv_bind Hrun. injection Hrun0 as <- <-.
  inv_bind Hrun. injection Hrun as <- <- <- _.
  destruct (epoch_loop_frame _ _ _ _ _ Hrun0)
    as (ss & fs & ts & F1 & F2 & F3 & L1 & L2 & L3 & Hlim).
  cbn in F1, F2, F3, Hlim. rewrite F1, F2, F3, L1, L2, L3.
  unfold range. rewrite length_seqZ. auto.
Qed.

End Loops.

(** *** The claims, one by one *)

(** C1: [_run_grover_iterations] does not do what the scheduler is said
    to do.  As written it raises [AttributeError] on its first line, for
    every agent, and changes nothing.  With the notation mended, the
    saturation test of lines 146 and 149 looks at the whole row of the
    state: once any action of a state is saturated, no operator is appended
    and no flag is set for any pair of that state.  At
    [m_saturated_sibling] the pair (1, 0) is not saturated and its
    recorded length equals the maximum 1, yet nothing is appended and its
    flag stays false, because action 1 of that state is saturated; with no
    saturated action in the row, the same call appends one operator and
    sets the flag. *)
Theorem run_grover_iterations_tests_the_row :
  (forall (Env Backend : Type) (m : @machine Env Backend),
     _run_grover_iterations AsWritten m
     = (Raise (AttributeError "grover_length"), m)) /\
  (forall (Env Backend : Type) (m m' : @machine Env Backend) row,
     _run_grover_iterations Mended m = (Ok tt, m') ->
     lookup_index (max_grover_length_reached (self m)) (state (self m))
       = Some row ->
     any row = true ->
     heap m' = heap m /\
     max_grover_length_reached (self m')
       = max_grover_length_reached (self m)) /\
  max_grover_length_reached (self Cycle.m_saturated_sibling)
    = [[false; false]; [false; true]; [false; false]] /\
  grover_lengths (self Cycle.m_saturated_sibling)
    = [[0; 0]; [1; 0]; [0; 0]]%Z /\
  max_grover_length (self Cycle.m_saturated_sibling) = 1%Z /\
  _run_grover_iterations Mended Cycle.m_saturated_sibling
    = (Ok tt, Cycle.m_saturated_sibling) /\
  (let m' := (_run_grover_iterations Mended Cycle.m_unsaturated).2 in
   heap m' !! 1%nat
     = Some (add_gates [Append (GroverOp [false]) [0%Z]]
               (Cycle.superposition 1)) /\
   max_grover_length_reached (self m')
     = [[false; false]; [true; false]; [false; false]]).
Proof.
  split; [intros Env Backend m; apply run_grover_iterations_as_written|].
  split; [intros Env Backend m m' row;
          apply run_grover_iterations_frozen_row|].
  repeat split; vm_compute; reflexivity.
Qed.

Lemma run_grover_iterations_tests_the_row_witness :
  let m := Cycle.m_saturated_sibling in
  let run := _run_grover_iterations Mended m in
  run = (Ok tt, run.2) /\
  lookup_index (max_grover_length_reached (self m)) (state (self m))
    = Some [false; true] /\
  any [false; true] = true /\
  heap run.2 = heap m /\
  max_grover_length_reached (self run.2) = max_grover_length_reached (self m).
Proof.
  assert (Hrun :
    _run_grover_iterations Mended Cycle.m_saturated_sibling
    = (Ok tt,
       (_run_grover_iterations Mended Cycle.m_saturated_sibling).2))
    by (vm_compute; reflexivity).
  destruct run_grover_iterations_tests_the_row as (_ & Hrow & _).
  split; [exact Hrun|]. split; [reflexivity|]. split; [reflexivity|].
  exact (Hrow _ _ _ _ [false; true] Hrun eq_refl eq_refl).
Defined.

(** C4: [_update_Q_values] never updates the table.  As written it raises
    on every call, for every agent, and leaves the machine as it was: the
    attribute [Q_value] that line 159 reads and writes is not one that
    [__init__] assigns ([Q_values] is).  At [m0] the exception is the
    [AttributeError]. *)
Theorem update_Q_values_reads_a_missing_table :
  (forall (Env Backend : Type) (m : @machine Env Backend) reward new_state,
     exists e, _update_Q_values AsWritten reward new_state m = (Raise e, m)) /\
  _update_Q_values AsWritten 99 2 Cycle.m0
    = (Raise (AttributeError "Q_value"), Cycle.m0).
Proof.
  split; [intros; apply update_Q_values_as_written|reflexivity].
Qed.

Lemma train_never_returns_witness :
  (1 <= max_epochs (hyperparameters (self Cycle.m_no_steps)))%Z /\
  (train Cycle.env_reset Cycle.env_step Cycle.backend_run AsWritten
     Cycle.m_no_steps).1 = Raise NotSubscriptable /\
  (train Cycle.env_reset Cycle.env_step Cycle.backend_run AsWritten
     Cycle.m0).1 = Raise (AttributeError "Q_value") /\
  exists e m',
    train Cycle.env_reset Cycle.env_step Cycle.backend_run AsWritten
      Cycle.m_no_steps = (Raise e, m').
Proof.
  split; [vm_compute; discriminate|].
  split; [vm_compute; reflexivity|].
  split; [vm_compute; reflexivity|].
  apply (train_never_returns Cycle.env_reset Cycle.env_step
           Cycle.backend_run Cycle.m_no_steps).
  vm_compute. discriminate.
Defined.

Lemma init_action_circuits_raises_witness :
  (1 <= state_dimension (self Cycle.m0))%Z /\
  (_init_action_circuits AsWritten Cycle.m0).1 = Raise ArrayStoreError.
Proof.
  split; [vm_compute; discriminate|].
  apply (init_action_circuits_raises Cycle.m0). vm_compute. discriminate.
Defined.

Lemma set_hyperparameters_is_a_no_op_witness :
  let built := (__init__ Cycle.env_reset 3 2 Mended Cycle.m_new).2 in
  __init__ Cycle.env_reset 3 2 Mended Cycle.m_new = (Ok tt, built) /\
  for_loop [Cycle.hp; default_hyperparameters]
    (fun params (_ : unit) => set_hyperparameters params;; mret (tt, false))
    tt built = (Ok tt, built) /\
  hyperparameters (self built) = default_hyperparameters.
Proof.
  assert (Hrun :
    __init__ Cycle.env_reset 3 2 Mended Cycle.m_new
    = (Ok tt, (__init__ Cycle.env_reset 3 2 Mended Cycle.m_new).2))
    by (vm_compute; reflexivity).
  destruct (set_hyperparameters_is_a_no_op Cycle.env_reset
              [Cycle.hp; default_hyperparameters]
              (__init__ Cycle.env_reset 3 2 Mended Cycle.m_new).2)
    as (Hcalls & _ & Hinit & _).
  split; [exact Hrun|]. split; [exact Hcalls|].
  exact (Hinit _ _ _ _ Hrun).
Defined.

Lemma take_action_leaves_the_circuits_witness :
  let run := _take_action Cycle.backend_run Cycle.m0 in
  run = (Ok 1%Z, run.2) /\
  self run.2 = self Cycle.m0 /\
  (forall l c, heap Cycle.m0 !! l = Some c -> heap run.2 !! l = Some c) /\
  jobs run.2 = [(measure_all (Cycle.superposition 0), 1%Z)].
Proof.
  assert (Hrun : _take_action Cycle.backend_run Cycle.m0
                 = (Ok 1%Z, (_take_action Cycle.backend_run Cycle.m0).2))
    by (vm_compute; reflexivity).
  destruct (take_action_leaves_the_circuits Cycle.backend_run _ _ _ Hrun)
    as (Hself & Hheap & _ & Hret).
  split; [exact Hrun|]. split; [exact Hself|]. split; [exact Hheap|].
  vm_compute. reflexivity.
Defined.

(** *** Lines 195 and 196 as written *)



(** *** Lines 186-194 *)

(** C5, as stated, fails: with four states, an agent that is in state 3
    and stays there gets the penalty of 10 and the bonus of 99 in the same
    step, and the step counts as reaching the target. *)
Lemma no_op_at_the_goal_gets_the_bonus :
  let r := shape_reward 3 4 0 3 0 false Cycle.frame0 in
  r.1.1 = (0 - 10 + 99)%Q /\ r.1.2 = true /\
  target_reached r.2 = true /\ optimal_steps r.2 = 1%Z /\
  ~ (r.1.1 == 0 - 10)%Q.
Proof.
  repeat split; try (vm_compute; reflexivity).
  vm_compute. discriminate.
Qed.

(** C5, amended: the rule for an unchanged state is an [if] of its own,
    followed by an [if]/[elif] pair for the goal bonus and the step
    penalty.  When the state is unchanged, the reward loses 10, [done] is
    forced, and the step penalty of 1 is not applied; the goal bonus of 99
    is applied as well exactly when the unchanged state is the last state
    index.  When the state changes, exactly one of the bonus, the penalty,
    or neither (on [done]) applies. *)
Theorem shape_reward_branches cur S step new_state reward done fr :
  let r := shape_reward cur S step new_state reward done fr in
  (new_state = cur ->
     r.1.2 = true /\
     (new_state <> (S - 1)%Z -> r.1.1 = (reward - 10)%Q /\ r.2 = fr) /\
     (new_state = (S - 1)%Z ->
        r.1.1 = (reward - 10 + 99)%Q /\
        r.2 = set_target_reached true (set_optimal_steps (step + 1) fr))) /\
  (new_state <> cur ->
     r.1.2 = done /\
     (new_state = (S - 1)%Z ->
        r.1.1 = (reward + 99)%Q /\
        r.2 = set_target_reached true (set_optimal_steps (step + 1) fr)) /\
     (new_state <> (S - 1)%Z ->
        r.1.1 = (if done then reward else (reward - 1)%Q) /\ r.2 = fr)).
Proof.
  unfold shape_reward.
  destruct (decide (new_state = cur)) as [Heq|Hne];
    destruct (decide (new_state = (S - 1)%Z)) as [Hg|Hg];
    cbn; (split; [intros ?|intros ?]); try contradiction;
    try (destruct done; cbn); repeat split; try reflexivity;
    intros; try contradiction; try reflexivity.
Qed.

Lemma shape_reward_branches_witness :
  (let r := shape_reward 1 4 0 1 0 false Cycle.frame0 in
   (1 = 1)%Z /\ r.1.2 = true /\ r.1.1 = (0 - 10)%Q /\ r.2 = Cycle.frame0) /\
  (let r := shape_reward 3 4 0 3 0 false Cycle.frame0 in
   (3 = 3)%Z /\ r.1.2 = true /\ r.1.1 = (0 - 10 + 99)%Q) /\
  (let r := shape_reward 2 4 0 3 0 false Cycle.frame0 in
   (3 <> 2)%Z /\ r.1.2 = false /\ r.1.1 = (0 + 99)%Q) /\
  (let r := shape_reward 0 4 0 1 0 false Cycle.frame0 in
   (1 <> 0)%Z /\ r.1.2 = false /\ r.1.1 = (0 - 1)%Q /\ r.2 = Cycle.frame0).
Proof.
  split; [|split; [|split]].
  - destruct (shape_reward_branches 1 4 0 1 0 false Cycle.frame0)
      as [Hsame _].
    destruct (Hsame eq_refl) as (Hdone & Hother & _).
    destruct Hother as [Hr Hf]; [vm_compute; discriminate|].
    repeat split; assumption.
  - destruct (shape_reward_branches 3 4 0 3 0 false Cycle.frame0)
      as [Hsame _].
    destruct (Hsame eq_refl) as (Hdone & _ & Hgoal).
    destruct Hgoal as [Hr _]; [reflexivity|].
    repeat split; assumption.
  - destruct (shape_reward_branches 2 4 0 3 0 false Cycle.frame0)
      as [_ Hmoved].
    assert (Hne : (3 <> 2)%Z) by discriminate.
    destruct (Hmoved Hne) as (Hdone & Hgoal & _).
    destruct Hgoal as [Hr _]; [reflexivity|].
    repeat split; assumption.
  - destruct (shape_reward_branches 0 4 0 1 0 false Cycle.frame0)
      as [_ Hmoved].
    assert (Hne : (1 <> 0)%Z) by discriminate.
    destruct (Hmoved Hne) as (Hdone & _ & Hstep).
    destruct Hstep as [Hr Hf]; [vm_compute; discriminate|].
    repeat split; assumption.
Defined.

(** *** The constructor on the cycle *)

(** With the notation mended, the constructor builds one circuit per state
    with a Hadamard gate on its qubit, one operator per action, zero
    tables and the default hyperparameters; as written it stops at the
    first store of line 115. *)
Lemma constructor_on_the_cycle :
  let run := __init__ Cycle.env_reset 3 2 Mended Cycle.m_new in
  run.1 = Ok tt /\
  heap run.2
    = [Cycle.superposition 0; Cycle.superposition 1; Cycle.superposition 2] /\
  action_circuits (self run.2) = [CircuitRef 0; CircuitRef 1; CircuitRef 2] /\
  grover_operators (self run.2)
    = [Instr (GroverOp [false]); Instr (GroverOp [true])] /\
  Q_values (self run.2) = zeros2 0%Q 3 2 /\
  hyperparameters (self run.2) = default_hyperparameters /\
  (__init__ Cycle.env_reset 3 2 AsWritten Cycle.m_new).1
    = Raise ArrayStoreError.
Proof.
  repeat split; vm_compute; reflexivity.
Qed.

End GroverQLearnerFacts.

(** * More of line 75 *)

Module MaxLengthMore.
Import MaxLength MaxLengthFacts.

(** X1: over the register sizes that line 75 accepts, 0 to 63 qubits, and
    whatever the last bit of [np.arcsin], the maximal Grover length that
    line 75 computes is never negative, does not decrease when the
    register grows, and is 0 for the empty register. *)
Theorem max_grover_length_nonneg_and_monotone (np_arcsin : float -> float)
    (n n' : Z) :
  within_one_ulp np_arcsin -> (0 <= n <= n')%Z -> (n' <= 63)%Z ->
  exists M M' : Z,
    max_grover_length_with np_arcsin n = Some M /\
    max_grover_length_with np_arcsin n' = Some M' /\
    (0 <= M <= M')%Z /\
    (n = 0%Z -> M = 0%Z).
Proof.
  intros Hulp Hn Hn'.
  pose proof (max_grover_length_with_candidate np_arcsin n Hulp) as Hc.
  pose proof (max_grover_length_with_candidate np_arcsin n' Hulp) as Hc'.
  specialize (Hc ltac:(lia)). specialize (Hc' ltac:(lia)).
  assert (Hi : In n (seqZ 0 64)) by (apply list_elem_of_In, elem_of_seqZ; lia).
  assert (Hnonneg :
    forallb (fun i =>
      forallb (fun c => match c with
                        | Some M => (0 <=? M)%Z && ((0 <? i)%Z || (M =? 0)%Z)
                        | None => false
                        end)
        (length_candidates i))
      (seqZ 0 64) = true) by (vm_compute; reflexivity).
  rewrite forallb_forall in Hnonneg.
  specialize (Hnonneg n Hi). rewrite forallb_forall in Hnonneg.
  specialize (Hnonneg _ Hc).
  destruct (max_grover_length_with np_arcsin n) as [M|] eqn:EM;
    [|discriminate].
  apply andb_true_iff in Hnonneg as [H0 Hzero]. apply Z.leb_le in H0.
  destruct (decide (n = n')) as [<-|Hne].
  - exists M, M. repeat split; try lia; exact EM.
  - assert (Hcross :
      forallb (fun i =>
        forallb (fun j =>
          forallb (fun c =>
            forallb (fun c' => match c, c' with
                               | Some M, Some M' => (M <=? M')%Z
                               | _, _ => false
                               end)
              (length_candidates j))
            (length_candidates i))
          (seqZ (i + 1) (63 - i)))
        (seqZ 0 64) = true) by (vm_compute; reflexivity).
    rewrite forallb_forall in Hcross.
    specialize (Hcross n Hi). rewrite forallb_forall in Hcross.
    assert (Hj : In n' (seqZ (n + 1) (63 - n)))
      by (apply list_elem_of_In, elem_of_seqZ; lia).
    specialize (Hcross n' Hj). rewrite forallb_forall in Hcross.
    specialize (Hcross _ Hc). rewrite forallb_forall in Hcross.
    specialize (Hcross _ Hc').
    destruct (max_grover_length_with np_arcsin n') as [M'|] eqn:EM';
      [|discriminate].
    apply Z.leb_le in Hcross.
    exists M, M'. repeat split; try lia; reflexivity.
Qed.

Lemma max_grover_length_nonneg_and_monotone_witness :
  within_one_ulp libm_arcsin /\ (0 <= 2 <= 3)%Z /\ (3 <= 63)%Z /\
  exists M M' : Z,
    max_grover_length_with libm_arcsin 2 = Some M /\
    max_grover_length_with libm_arcsin 3 = Some M' /\
    (0 <= M <= M')%Z /\
    (2%Z = 0%Z -> M = 0%Z).
Proof.
  assert (Hulp : within_one_ulp libm_arcsin)
    by (intros n _; right; left; reflexivity).
  assert (H23 : (0 <= 2 <= 3)%Z) by lia.
  assert (H3 : (3 <= 63)%Z) by lia.
  split; [exact Hulp|]. split; [exact H23|]. split; [exact H3|].
  exact (max_grover_length_nonneg_and_monotone libm_arcsin 2 3 Hulp H23 H3).
Defined.

End MaxLengthMore.

(** * More of the methods *)

Module GroverQLearnerMore.
Import GroverQLearner GroverQLearnerFacts Observations.

(** *** Labels: [format(i, '0nb')] and [int(key, 2)] *)

Lemma int_base2_snoc (l : list bool) (b : bool) :
  int_base2 (l ++ [b]) = (2 * int_base2 l + (if b then 1 else 0))%Z.
Proof. unfold int_base2. rewrite fold_left_app. reflexivity. Qed.

Lemma int_base2_zeros (k : nat) (l : list bool) :
  int_base2 (replicate k false ++ l) = int_base2 l.
Proof.
  unfold int_base2. rewrite fold_left_app. f_equal.
  induction k as [|k IH]; [reflexivity|exact IH].
Qed.

Lemma int_base2_range (l : list bool) :
  (0 <= int_base2 l < 2 ^ Z.of_nat (length l))%Z.
Proof.
  induction l as [|b l IH] using rev_ind; [cbn; lia|].
  rewrite int_base2_snoc, length_app. cbn [length].
  replace (Z.of_nat (length l + 1)) with (Z.succ (Z.of_nat (length l))) by lia.
  rewrite Z.pow_succ_r by lia. destruct b; lia.
Qed.

Lemma binary_digits_value (fuel : nat) :
  forall i : Z, (0 <= i < 2 ^ Z.of_nat fuel)%Z ->
  int_base2 (binary_digits fuel i) = i.
Proof.
  induction fuel as [|fuel IH]; intros i Hi.
  - cbn in *. lia.
  - cbn [binary_digits]. destruct (decide (i <= 0)%Z); [cbn; lia|].
    rewrite int_base2_snoc, IH.
    + rewrite (Z.div2_odd i) at 3. rewrite Z.div2_div.
      destruct (Z.odd i); reflexivity.
    + replace (Z.of_nat (S fuel)) with (Z.succ (Z.of_nat fuel)) in Hi by lia.
      rewrite Z.pow_succ_r in Hi by lia.
      split; [apply Z.div_pos; lia|apply Z.div_lt_upper_bound; lia].
Qed.

Lemma binary_digits_length (fuel : nat) :
  forall (i : Z) (w : nat), (0 <= i < 2 ^ Z.of_nat w)%Z ->
  (length (binary_digits fuel i) <= w)%nat.
Proof.
  induction fuel as [|fuel IH]; intros i w Hi; [cbn; lia|].
  cbn [binary_digits]. destruct (decide (i <= 0)%Z); [cbn; lia|].
  destruct w as [|w]; [cbn in Hi; lia|].
  rewrite length_app. cbn [length].
  replace (Z.of_nat (S w)) with (Z.succ (Z.of_nat w)) in Hi by lia.
  rewrite Z.pow_succ_r in Hi by lia.
  assert (Hhalf : (0 <= i / 2 < 2 ^ Z.of_nat w)%Z)
    by (split; [apply Z.div_pos; lia|apply Z.div_lt_upper_bound; lia]).
  specialize (IH (i / 2)%Z w Hhalf). lia.
Qed.

Lemma fuel_enough (i : Z) :
  (0 <= i)%Z -> (0 <= i < 2 ^ Z.of_nat (S (Z.to_nat (Z.log2 i))))%Z.
Proof.
  intros Hi. split; [exact Hi|].
  destruct (decide (i = 0)%Z) as [->|Hne]; [cbn; lia|].
  pose proof (Z.log2_spec i ltac:(lia)) as [_ Hlt].
  pose proof (Z.log2_nonneg i).
  replace (Z.of_nat (S (Z.to_nat (Z.log2 i)))) with (Z.succ (Z.log2 i)) by lia.
  exact Hlt.
Qed.

(** [int(format(i, '0nb'), 2)] is [i]: the digits of [i], padded with
    zeros to the width [n], read back in base 2. *)
Lemma int_base2_format_binary (i n : Z) :
  (0 <= i)%Z -> int_base2 (format_binary i n) = i.
Proof.
  intros Hi. unfold format_binary. rewrite int_base2_zeros.
  pose proof (binary_digits_value _ i (fuel_enough i Hi)) as Hv.
  destruct (binary_digits _ i) as [|b ds]; [cbn in *; lia|exact Hv].
Qed.

Lemma format_binary_width (i n : Z) :
  (1 <= n)%Z -> (0 <= i < 2 ^ n)%Z ->
  length (format_binary i n) = Z.to_nat n.
Proof.
  intros Hn Hi. unfold format_binary.
  pose proof (binary_digits_length (S (Z.to_nat (Z.log2 i))) i (Z.to_nat n))
    as Hlen.
  rewrite Z2Nat.id in Hlen by lia. specialize (Hlen Hi).
  rewrite length_app, length_replicate.
  destruct (binary_digits _ i) as [|b ds]; cbn [length] in *; lia.
Qed.

(** Two strings of binary digits of the same length with the same value
    are the same string. *)
Lemma int_base2_inj (l : list bool) :
  forall l' : list bool,
    length l = length l' -> int_base2 l = int_base2 l' -> l = l'.
Proof.
  induction l as [|b l IH] using rev_ind; intros l' Hlen Hval.
  - destruct l'; [reflexivity|discriminate].
  - destruct l' as [|b' l' _] using rev_ind.
    + rewrite length_app in Hlen. cbn in Hlen. lia.
    + rewrite !length_app in Hlen. cbn [length] in Hlen.
      rewrite !int_base2_snoc in Hval.
      assert (Hb : b = b') by (destruct b, b'; (reflexivity || lia)).
      subst b'. f_equal. apply IH; [lia|]. destruct b; lia.
Qed.

(** X2: labels and keys are each other's inverse.  The label that line 114
    builds for an action, read back in base 2 as line 128 reads a measured
    key, is the action, whatever the width that it was padded to; and the
    action that line 128 reads from a key, formatted to the width of the
    key, is the key. *)
Theorem label_round_trip (i n : Z) (key : list bool) :
  (0 <= i)%Z -> key <> [] ->
  int_base2 (format_binary i n) = i /\
  format_binary (int_base2 key) (Z.of_nat (length key)) = key.
Proof.
  intros Hi Hkey. split; [apply int_base2_format_binary, Hi|].
  pose proof (int_base2_range key) as Hr.
  assert (Hlen : (1 <= Z.of_nat (length key))%Z)
    by (destruct key; [congruence|cbn [length]; lia]).
  apply int_base2_inj.
  - rewrite format_binary_width by assumption. apply Nat2Z.id.
  - apply int_base2_format_binary. lia.
Qed.

Lemma label_round_trip_witness :
  (0 <= 5)%Z /\ [true; false; true] <> [] /\
  int_base2 (format_binary 5 4) = 5%Z /\
  format_binary (int_base2 [true; false; true])
    (Z.of_nat (length [true; false; true]))
  = [true; false; true].
Proof.
  split; [lia|]. split; [discriminate|].
  apply (label_round_trip 5 4 [true; false; true]); [lia|discriminate].
Defined.

(** X3: in a register of [n] qubits, [n] at least 1, the label that line
    114 builds for an action below [2^n] has exactly [n] digits, and the
    label of an action from [2^n] on is longer than the register; two
    actions with the same label are the same action. *)
Theorem labels_fit_the_register (n i j : Z) :
  (1 <= n)%Z -> (0 <= i)%Z -> (0 <= j)%Z ->
  ((i < 2 ^ n)%Z -> length (format_binary i n) = Z.to_nat n) /\
  ((2 ^ n <= i)%Z -> (Z.to_nat n < length (format_binary i n))%nat) /\
  (format_binary i n = format_binary j n -> i = j).
Proof.
  intros Hn Hi Hj. split; [|split].
  - intros Hlt. apply format_binary_width; lia.
  - intros Hge.
    pose proof (int_base2_range (format_binary i n)) as Hr.
    rewrite int_base2_format_binary in Hr by lia.
    assert (Hpow : (2 ^ n < 2 ^ Z.of_nat (length (format_binary i n)))%Z)
      by lia.
    apply Z.pow_lt_mono_r_iff in Hpow; lia.
  - intros E. apply (f_equal int_base2) in E.
    rewrite !int_base2_format_binary in E by lia. exact E.
Qed.

Lemma labels_fit_the_register_witness :
  (1 <= 2)%Z /\ (0 <= 1)%Z /\ (0 <= 2)%Z /\
  ((1 < 2 ^ 2)%Z -> length (format_binary 1 2) = Z.to_nat 2) /\
  ((2 ^ 2 <= 1)%Z -> (Z.to_nat 2 < length (format_binary 1 2))%nat) /\
  (format_binary 1 2 = format_binary 2 2 -> 1%Z = 2%Z).
Proof.
  do 3 (split; [lia|]). apply (labels_fit_the_register 2 1 2); lia.
Defined.

(** With a single action the register is empty and the label still has one
    digit: [format(0, '00b')] is ['0']. *)
Lemma single_action_label :
  MaxLength.action_qregister_size 1 = 0%Z /\ format_binary 0 0 = [false].
Proof. split; reflexivity. Qed.

Section More.
Context {Env Backend : Type}.
Variable env_reset : Env -> Z * Env.
Variable env_step : Z -> Env -> (Z * Q * bool * bool) * Env.
Variable backend_run :
  circuit -> Z -> Backend -> list (list bool * Z) * Backend.
Implicit Types m : @machine Env Backend.

Lemma lookup_index_0 {A} (l : list A) (x : A) :
  lookup_index l 0 = Some x -> exists rest, l = x :: rest.
Proof.
  unfold lookup_index, norm_index.
  destruct l as [|y rest]; cbn; [discriminate|].
  intros E. destruct (decide _) as [|Hn]; cbn in E; [|lia].
  injection E as ->. eauto.
Qed.

(** *** [_take_action] *)

(** X4: when [_take_action] returns, the state had a circuit, the backend
    was run once on a measured copy of it for one shot, and the action
    returned is the first key of the counts read in base 2: a number from
    0 up to 2 to the number of digits of the key, excluded. *)
Theorem take_action_decodes_the_first_key m a m' :
  _take_action backend_run m = (Ok a, m') ->
  exists l c key count rest,
    lookup_index (action_circuits (self m)) (state (self m))
      = Some (CircuitRef l) /\
    heap m !! l = Some c /\
    (backend_run (measure_all c) 1 (backend m)).1 = (key, count) :: rest /\
    backend m' = (backend_run (measure_all c) 1 (backend m)).2 /\
    key <> [] /\
    a = int_base2 key /\
    (0 <= a < 2 ^ Z.of_nat (length key))%Z.
Proof.
  cbv [_take_action getitem circuit_method deref alloc mutate execute submit
       mbind M_bind mret M_ret raise from_option get_self].
  intros Hrun.
  repeat case_match; simplify_eq; cbn in *.
  all: match goal with
       | Hc : alter _ _ _ !! _ = Some _ |- _ =>
           rewrite heap_copy_last in Hc;
           rewrite lookup_app_r in Hc by lia;
           rewrite Nat.sub_diag in Hc; cbn in Hc; simplify_eq
       end.
  all: match goal with
       | Hk : lookup_index (map fst ?cs) 0 = Some ?key |- _ =>
           apply lookup_index_0 in Hk as [rest Hk];
           destruct cs as [|[key' count] cs'] eqn:Ecs; [discriminate|];
           cbn in Hk; injection Hk as -> _
       end.
  all: eexists _, _, _, _, _.
  all: split; [reflexivity|]. all: split; [eassumption|].
  all: split; [exact Ecs|]. all: split; [reflexivity|].
  all: split; [discriminate|]. all: split; [reflexivity|].
  all: match goal with
       | |- context [fold_left _ ?l (2 * 0 + (if ?b then 1 else 0))%Z] =>
           apply (int_base2_range (b :: l))
       end.
Qed.

(** X5: when [_take_action] raises, either nothing has happened (the state
    has no entry in the array of circuits, or the entry is not a circuit),
    or the job was submitted and the copy made, and the backend returned
    no counts or an empty key. *)
Theorem take_action_failure_modes m e m' :
  _take_action backend_run m = (Raise e, m') ->
  (m' = m /\ (e = IndexError \/ e = AttributeError "measure_all")) \/
  (exists l c,
     lookup_index (action_circuits (self m)) (state (self m))
       = Some (CircuitRef l) /\
     heap m !! l = Some c /\
     jobs m' = jobs m ++ [(measure_all c, 1%Z)] /\
     heap m' = heap m ++ [measure_all c] /\
     (e = IndexError \/ e = ValueError)).
Proof.
  cbv [_take_action getitem circuit_method deref alloc mutate execute submit
       mbind M_bind mret M_ret raise from_option get_self].
  intros Hrun.
  repeat case_match; simplify_eq; cbn in *; auto.
  all: try match goal with
       | Hc : alter _ _ _ !! _ = Some _ |- _ =>
           rewrite heap_copy_last in Hc;
           rewrite lookup_app_r in Hc by lia;
           rewrite Nat.sub_diag in Hc; cbn in Hc; simplify_eq
       | Hc : alter _ _ _ !! _ = None |- _ =>
           rewrite heap_copy_last in Hc;
           rewrite lookup_app_r in Hc by lia;
           rewrite Nat.sub_diag in Hc; cbn in Hc; discriminate
       end.
  all: right; eexists _, _; rewrite ?heap_copy_last; eauto 10.
Qed.

(** *** The constructor as written *)

(** The first store of line 115 raises and leaves the machine alone. *)
Lemma init_grover_operators_stops m :
  (1 <= action_dimension (self m))%Z ->
  _init_grover_operators AsWritten m = (Raise ArrayStoreError, m).
Proof.
  intros HA.
  cbv [_init_grover_operators np_zeros mbind M_bind mret M_ret raise get_self].
  destruct (decide _) as [|_]; [lia|].
  unfold range. rewrite seqZ_cons by lia. cbn [for_loop].
  cbv [store_object getitem from_option lookup_index norm_index
       mbind M_bind mret M_ret raise].
  rewrite length_replicate.
  destruct (decide _) as [|Hn]; [|lia].
  cbn. destruct (Z.to_nat (action_dimension (self m))) eqn:E; [lia|].
  reflexivity.
Qed.

(** X8: [_init_grover_operators] as written raises [ValueError] (from
    [np.zeros]) for a negative number of actions, returns an empty array
    for none, and with one action or more raises at the first store of
    line 115; the machine is unchanged in each case. *)
Theorem init_grover_operators_outcomes m :
  let A := action_dimension (self m) in
  ((A < 0)%Z -> _init_grover_operators AsWritten m = (Raise ValueError, m)) /\
  (A = 0%Z -> _init_grover_operators AsWritten m = (Ok [], m)) /\
  ((1 <= A)%Z ->
   _init_grover_operators AsWritten m = (Raise ArrayStoreError, m)).
Proof.
  cbv zeta. split; [|split]; intros HA.
  - cbv [_init_grover_operators np_zeros mbind M_bind mret M_ret raise
         get_self].
    destruct (decide _); [reflexivity|lia].
  - cbv [_init_grover_operators np_zeros mbind M_bind mret M_ret raise
         get_self].
    rewrite HA. reflexivity.
  - apply init_grover_operators_stops, HA.
Qed.

(** X9: [_init_action_circuits] as written raises [ValueError] for a
    negative number of states, returns an empty array for none, and with
    one state or more raises at the store of line 101, after the circuit
    of state 0, and only that one, has been created. *)
Theorem init_action_circuits_outcomes m :
  let S := state_dimension (self m) in
  ((S < 0)%Z -> _init_action_circuits AsWritten m = (Raise ValueError, m)) /\
  (S = 0%Z -> _init_action_circuits AsWritten m = (Ok [], m)) /\
  ((1 <= S)%Z ->
   _init_action_circuits AsWritten m
   = (Raise ArrayStoreError,
      set_heap
        (heap m ++ [QuantumCircuit (action_qregister_size (self m)) 0]) m)).
Proof.
  cbv zeta.
  cbv [_init_action_circuits np_zeros mbind M_bind mret M_ret raise get_self].
  split; [|split]; intros HS.
  - destruct (decide _); [reflexivity|lia].
  - rewrite HS. reflexivity.
  - destruct (decide _) as [|_]; [lia|].
    unfold range. rewrite seqZ_cons by lia. cbn [for_loop].
    cbv [alloc store_object getitem from_option lookup_index norm_index
         mbind M_bind mret M_ret raise].
    rewrite length_replicate.
    destruct (decide _) as [|Hn]; [|lia].
    cbn. destruct (Z.to_nat (state_dimension (self m))) eqn:E; [lia|].
    reflexivity.
Qed.

(** X10: the constructor as written never returns.  It raises
    [OverflowError] for an empty action space, [ValueError] for a negative
    one or for a negative number of states, and otherwise raises at the
    first store of line 115; by then the environment has been reset, the
    state is the start state, the action is 0 and no circuit exists. *)
Theorem init_outcomes (S A : Z) m :
  let run := __init__ env_reset S A AsWritten m in
  (A = 0%Z -> run.1 = Raise OverflowError) /\
  ((A < 0)%Z -> run.1 = Raise ValueError) /\
  ((1 <= A)%Z -> (S < 0)%Z -> run.1 = Raise ValueError) /\
  ((1 <= A)%Z -> (0 <= S)%Z -> run.1 = Raise ArrayStoreError) /\
  state (self run.2) = (env_reset (env m)).1 /\
  action (self run.2) = 0%Z /\
  env run.2 = (env_reset (env m)).2 /\
  heap run.2 = heap m.
Proof.
  cbv zeta. unfold __init__.
  repeat (rewrite bind_run; cbn [modify_self]).
  unfold ceil_log2.
  destruct (decide (A = 0)%Z) as [HA0|HA0].
  { cbn. repeat split; try reflexivity; intros; lia. }
  destruct (decide (A < 0)%Z) as [HAn|HAn].
  { cbn. repeat split; try reflexivity; intros; lia. }
  cbn [mret M_ret].
  repeat (rewrite bind_run; cbn [modify_self]).
  unfold np_zeros2.
  destruct (decide (S < 0 \/ A < 0)%Z) as [HS|HS].
  { cbn. repeat split; try reflexivity; intros; lia. }
  repeat (progress (rewrite ?bind_run; cbn [modify_self mret M_ret])).
  match goal with
  | |- context [_init_grover_operators AsWritten ?m0] =>
      rewrite (init_grover_operators_stops m0) by (cbn; lia)
  end.
  cbn. repeat split; try reflexivity; intros; lia.
Qed.

Lemma train_step_as_written step fr m :
  exists e m',
    train_step env_step backend_run AsWritten step fr m = (Raise e, m') /\
    tables_unchanged m m' /\
    (jobs m' = jobs m \/ exists c, jobs m' = jobs m ++ [(c, 1%Z)]).
Proof.
  unfold train_step. rewrite bind_run.
  destruct (_take_action backend_run m) as [[a|e] m1] eqn:Htake;
    destruct (take_action_frame _ _ _ _ Htake) as (Hself & _ & Hheap & Hjobs).
  - repeat (progress (rewrite ?bind_run; cbn [modify_self get_self])).
    match goal with
    | |- context [_update_Q_values AsWritten ?r ?s ?m0] =>
        destruct (update_Q_values_as_written r s m0) as [e ->]
    end.
    eexists _, _. split; [reflexivity|].
    unfold tables_unchanged. cbn. rewrite Hself. auto 10.
  - eexists _, _. split; [reflexivity|].
    unfold tables_unchanged. rewrite Hself. auto 10.
Qed.

Lemma train_epoch_as_written_effect epoch fr m :
  exists e m',
    train_epoch env_reset env_step backend_run AsWritten epoch fr m
    = (Raise e, m') /\
    tables_unchanged m m' /\
    (jobs m' = jobs m \/ exists c, jobs m' = jobs m ++ [(c, 1%Z)]) /\
    ((optimal_steps fr <= 0)%Z ->
     e = NotSubscriptable /\
     m' = set_self (set_state (env_reset (env m)).1 (self m))
            (set_env (env_reset (env m)).2 m)).
Proof.
  unfold train_epoch, epoch_start.
  repeat (progress (rewrite ?bind_run; cbn [modify_self mret M_ret
    optimal_steps set_trajectory set_target_reached])).
  destruct (decide (optimal_steps fr <= 0)%Z) as [Hst|Hst].
  - unfold range. rewrite seqZ_nil by lia. cbn.
    eexists _, _. split; [reflexivity|].
    unfold tables_unchanged. auto 10.
  - unfold range. rewrite seqZ_cons by lia. cbn [for_loop].
    rewrite bind_run.
    match goal with
    | |- context [train_step _ _ AsWritten ?i ?fr0 ?m0] =>
        destruct (train_step_as_written i fr0 m0)
          as (e & m' & -> & Htab & Hjobs)
    end.
    eexists _, _. split; [reflexivity|].
    unfold tables_unchanged in *. cbn in Htab, Hjobs.
    destruct Htab as (? & ? & ? & ? & ? & ? & ?).
    split; [auto 10|]. split; [exact Hjobs|]. intros; lia.
Qed.

(** X11: a call of [train] as written leaves the three tables, the
    circuits, the operators and the hyperparameters as they were, and
    submits at most one job. *)
Theorem train_as_written_never_learns m :
  let run := train env_reset env_step backend_run AsWritten m in
  tables_unchanged m run.2 /\
  (jobs run.2 = jobs m \/ exists c, jobs run.2 = jobs m ++ [(c, 1%Z)]).
Proof.
  cbv zeta. unfold train. rewrite bind_run. cbn [get_self].
  destruct (decide (max_epochs (hyperparameters (self m)) <= 0)%Z) as [Hep|Hep].
  - unfold range. rewrite seqZ_nil by lia. cbn.
    unfold tables_unchanged. auto 10.
  - unfold range. rewrite seqZ_cons by lia. cbn [for_loop].
    rewrite !bind_run.
    match goal with
    | |- context [train_epoch _ _ _ AsWritten ?i ?fr ?m0] =>
        destruct (train_epoch_as_written_effect i fr m0)
          as (e & m' & -> & Htab & Hjobs & _)
    end.
    cbn. auto.
Qed.

(** X12: with no epoch to run, [train] returns three empty lists and
    touches nothing, the environment included, under both readings. *)
Theorem train_without_epochs rd m :
  (max_epochs (hyperparameters (self m)) <= 0)%Z ->
  train env_reset env_step backend_run rd m = (Ok ([], [], []), m).
Proof.
  intros Hep. unfold train. rewrite bind_run. cbn [get_self].
  unfold range. rewrite seqZ_nil by lia. reflexivity.
Qed.

(** X13: with an epoch to run and no step to take, [train] as written
    resets the environment, sets the state to the start state and raises
    at line 203, where the bound method [append] is subscripted. *)
Theorem train_without_steps m :
  (1 <= max_epochs (hyperparameters (self m)))%Z ->
  (max_steps (hyperparameters (self m)) <= 0)%Z ->
  train env_reset env_step backend_run AsWritten m
  = (Raise NotSubscriptable,
     set_self (set_state (env_reset (env m)).1 (self m))
       (set_env (env_reset (env m)).2 m)).
Proof.
  intros Hep Hst. unfold train. rewrite bind_run. cbn [get_self].
  unfold range. rewrite seqZ_cons by lia. cbn [for_loop].
  rewrite !bind_run.
  match goal with
  | |- context [train_epoch _ _ _ AsWritten ?i ?fr ?m0] =>
      destruct (train_epoch_as_written_effect i fr m0)
        as (e & m' & -> & _ & _ & Hex)
  end.
  destruct (Hex Hst) as [-> ->]. reflexivity.
Qed.

End More.

(** ** The properties on the cycle *)

Lemma take_action_decodes_the_first_key_witness :
  let run := _take_action Cycle.backend_run Cycle.m0 in
  run = (Ok 1%Z, run.2) /\
  exists l c key count rest,
    lookup_index (action_circuits (self Cycle.m0)) (state (self Cycle.m0))
      = Some (CircuitRef l) /\
    heap Cycle.m0 !! l = Some c /\
    (Cycle.backend_run (measure_all c) 1 (backend Cycle.m0)).1
      = (key, count) :: rest /\
    backend run.2
      = (Cycle.backend_run (measure_all c) 1 (backend Cycle.m0)).2 /\
    key <> [] /\
    1%Z = int_base2 key /\
    (0 <= 1 < 2 ^ Z.of_nat (length key))%Z.
Proof.
  assert (Hrun : _take_action Cycle.backend_run Cycle.m0
                 = (Ok 1%Z, (_take_action Cycle.backend_run Cycle.m0).2))
    by (vm_compute; reflexivity).
  split; [exact Hrun|].
  exact (take_action_decodes_the_first_key Cycle.backend_run _ _ _ Hrun).
Defined.

Lemma take_action_failure_modes_witness :
  _take_action Cycle.backend_run Cycle.m_new
  = (Raise IndexError, Cycle.m_new) /\
  ((Cycle.m_new = Cycle.m_new /\
    (IndexError = IndexError \/ IndexError = AttributeError "measure_all")) \/
   (exists l c,
      lookup_index (action_circuits (self Cycle.m_new))
        (state (self Cycle.m_new)) = Some (CircuitRef l) /\
      heap Cycle.m_new !! l = Some c /\
      jobs Cycle.m_new = jobs Cycle.m_new ++ [(measure_all c, 1%Z)] /\
      heap Cycle.m_new = heap Cycle.m_new ++ [measure_all c] /\
      (IndexError = IndexError \/ IndexError = ValueError))).
Proof.
  assert (Hrun : _take_action Cycle.backend_run Cycle.m_new
                 = (Raise IndexError, Cycle.m_new))
    by (vm_compute; reflexivity).
  split; [exact Hrun|].
  exact (take_action_failure_modes Cycle.backend_run _ _ _ Hrun).
Defined.

Lemma init_grover_operators_outcomes_witness :
  (1 <= action_dimension (self Cycle.m0))%Z /\
  _init_grover_operators AsWritten Cycle.m0
  = (Raise ArrayStoreError, Cycle.m0).
Proof.
  assert (HA : (1 <= action_dimension (self Cycle.m0))%Z) by (cbn; lia).
  split; [exact HA|].
  exact (proj2 (proj2 (init_grover_operators_outcomes Cycle.m0)) HA).
Defined.

Lemma init_action_circuits_outcomes_witness :
  (1 <= state_dimension (self Cycle.m0))%Z /\
  _init_action_circuits AsWritten Cycle.m0
  = (Raise ArrayStoreError,
     set_heap
       (heap Cycle.m0
        ++ [QuantumCircuit (action_qregister_size (self Cycle.m0)) 0])
       Cycle.m0).
Proof.
  assert (HS : (1 <= state_dimension (self Cycle.m0))%Z) by (cbn; lia).
  split; [exact HS|].
  exact (proj2 (proj2 (init_action_circuits_outcomes Cycle.m0)) HS).
Defined.

Lemma init_outcomes_witness :
  (1 <= 2)%Z /\ (0 <= 3)%Z /\
  (__init__ Cycle.env_reset 3 2 AsWritten Cycle.m_new).1
  = Raise ArrayStoreError.
Proof.
  assert (HA : (1 <= 2)%Z) by lia. assert (HS : (0 <= 3)%Z) by lia.
  split; [exact HA|]. split; [exact HS|].
  exact (proj1 (proj2 (proj2 (proj2
           (init_outcomes Cycle.env_reset 3 2 Cycle.m_new)))) HA HS).
Defined.

Lemma train_without_epochs_witness :
  (max_epochs (hyperparameters (self m_no_epochs)) <= 0)%Z /\
  train Cycle.env_reset Cycle.env_step Cycle.backend_run AsWritten
    m_no_epochs
  = (Ok ([], [], []), m_no_epochs).
Proof.
  assert (Hep : (max_epochs (hyperparameters (self m_no_epochs)) <= 0)%Z)
    by (cbn; lia).
  split; [exact Hep|].
  exact (train_without_epochs Cycle.env_reset Cycle.env_step
           Cycle.backend_run AsWritten m_no_epochs Hep).
Defined.

Lemma train_without_steps_witness :
  (1 <= max_epochs (hyperparameters (self Cycle.m_no_steps)))%Z /\
  (max_steps (hyperparameters (self Cycle.m_no_steps)) <= 0)%Z /\
  train Cycle.env_reset Cycle.env_step Cycle.backend_run AsWritten
    Cycle.m_no_steps
  = (Raise NotSubscriptable,
     set_self
       (set_state (Cycle.env_reset (env Cycle.m_no_steps)).1
          (self Cycle.m_no_steps))
       (set_env (Cycle.env_reset (env Cycle.m_no_steps)).2
          Cycle.m_no_steps)).
Proof.
  assert (Hep : (1 <= max_epochs (hyperparameters (self Cycle.m_no_steps)))%Z)
    by (cbn; lia).
  assert (Hst : (max_steps (hyperparameters (self Cycle.m_no_steps)) <= 0)%Z)
    by (cbn; lia).
  split; [exact Hep|]. split; [exact Hst|].
  exact (train_without_steps Cycle.env_reset Cycle.env_step
           Cycle.backend_run Cycle.m_no_steps Hep Hst).
Defined.

End GroverQLearnerMore.
